(** * Legal-text chunking: a shallow embedding of [s3_LegalChunkingStrategy.py]

    The Python class [LegalChunkingStrategy] cuts page texts of Korean
    statutes into token-bounded chunks (article, then clause, then raw token
    windows), numbers the chunks and appends a preview of the next chunk.

    Conventions of the embedding:
    - a Python [str] is the list of its Unicode code points ([pystr]);
    - a Python [int] is a [Z]; token ids are [Z];
    - a raised exception is the left summand of [result];
    - the tokenizer (tiktoken's [Encoding]) is not part of the repository:
      it is the field [encoder] of the strategy object, a pair of functions
      [encode]/[decode] about which nothing else is assumed; concrete runs
      use the tokenizer with one token per code point;
    - the methods are given twice: over a tokenizer that returns on every
      input, and in the module [Raising] over a tokenizer whose [encode] and
      [decode] can raise.  The second does what the first does up to the
      exceptions of the tokenizer ([process_agrees]); what is said about
      exceptions is said about the second;
    - a text block (a JSON object) is a [gmap string jval], so that a missing
      key is a failed lookup, as in Python. *)

From Stdlib Require Import ZArith Decimal DecimalN.
From stdpp Require Import base numbers option list strings gmap.

Local Open Scope Z_scope.

(** ** Python values *)

Definition pystr := list Z.

(** Code points of a UTF-8 literal; only used to write string constants. *)
Fixpoint utf8_go (bs : list Z) (need : nat) (acc : Z) : pystr :=
  match bs with
  | [] => []
  | b :: r =>
      match need with
      | O =>
          if b <? 128 then b :: utf8_go r 0 0
          else if b <? 224 then utf8_go r 1 (b - 192)
          else if b <? 240 then utf8_go r 2 (b - 224)
          else utf8_go r 3 (b - 240)
      | S O => (acc * 64 + (b - 128)) :: utf8_go r 0 0
      | S k => utf8_go r k (acc * 64 + (b - 128))
      end
  end.

Definition py (s : string) : pystr :=
  utf8_go (map (fun a => Z.of_N (Ascii.N_of_ascii a)) (String.list_ascii_of_string s)) 0 0.

Inductive exn : Type :=
  | KeyError (key : string)
  | TypeError
  | ValueError.

Definition result (A : Type) : Type := exn + A.

Definition ret {A} (a : A) : result A := inr a.
Definition raise {A} (e : exn) : result A := inl e.
Definition bind {A B} (m : result A) (k : A -> result B) : result B :=
  match m with
  | inl e => inl e
  | inr a => k a
  end.

Notation "'let*' x ':=' m 'in' k" := (bind m (fun x => k))
  (at level 10, x pattern, m at level 100, k at level 200).

(** JSON scalars a text block carries. *)
Inductive jval : Type :=
  | JNull
  | JInt (n : Z)
  | JStr (s : pystr).

Global Instance jval_eq_dec : EqDecision jval.
Proof. solve_decision. Defined.

(** Python's [==] on these scalars. *)
Definition py_eq (a b : jval) : bool := bool_decide (a = b).

(** ** Character classes of the interpreter (Unicode 14, CPython 3.11) *)

(** [str.isspace], the characters removed by [str.strip()]. *)
Definition isspace (c : Z) : bool :=
  ((9 <=? c) && (c <=? 13)) || ((28 <=? c) && (c <=? 32))
  || (c =? 133) || (c =? 160) || (c =? 5760)
  || ((8192 <=? c) && (c <=? 8202)) || (c =? 8232) || (c =? 8233)
  || (c =? 8239) || (c =? 8287) || (c =? 12288).

(** First code point of every run of ten decimal digits (category Nd). *)
Definition Nd_zero : list Z :=
  [48; 1632; 1776; 1984; 2406; 2534; 2662; 2790; 2918; 3046; 3174; 3302;
   3430; 3558; 3664; 3792; 3872; 4160; 4240; 6112; 6160; 6470; 6608; 6784;
   6800; 6992; 7088; 7232; 7248; 42528; 43216; 43264; 43472; 43504; 43600;
   44016; 65296; 66720; 68912; 69734; 69872; 69942; 70096; 70384; 70736;
   70864; 71248; 71360; 71472; 71904; 72016; 72784; 73040; 73120; 92768;
   92864; 93008; 120782; 120792; 120802; 120812; 120822; 123200; 123632;
   125264; 130032].

(** The class [\d] of [re] on a [str] pattern. *)
Definition isdecimal (c : Z) : bool :=
  existsb (fun z => (z <=? c) && (c <? z + 10)) Nd_zero.

(** ** [str.strip] *)

Fixpoint lstrip (s : pystr) : pystr :=
  match s with
  | [] => []
  | c :: r => if isspace c then lstrip r else s
  end.

Definition rstrip (s : pystr) : pystr := rev (lstrip (rev s)).

Definition strip (s : pystr) : pystr := rstrip (lstrip s).

(** ** The two regular expressions *)

Definition JE : Z := 51228.   (* 제 *)
Definition JO : Z := 51312.   (* 조 *)
Definition UI : Z := 51032.   (* 의 *)

(** Longest run of [\d] at the head of [s], and what follows. *)
Fixpoint span_digits (s : pystr) : pystr * pystr :=
  match s with
  | [] => ([], [])
  | c :: r =>
      if isdecimal c
      then let '(ds, rest) := span_digits r in (c :: ds, rest)
      else ([], s)
  end.

(** One match attempt of [제\d+조(?:의\d+)?] at the head of [s]: the matched
    text and the remainder.  Each [\d+] takes the whole run of digits; giving
    digits back never helps, because what would follow is a digit, not 조.
    The group [(?:의\d+)?] is taken whenever 의 and a digit follow. *)
Definition match_article (s : pystr) : option (pystr * pystr) :=
  match s with
  | c :: s1 =>
      if c =? JE then
        match span_digits s1 with
        | ([], _) => None
        | (ds, s2) =>
            match s2 with
            | c2 :: s3 =>
                if c2 =? JO then
                  match s3 with
                  | c3 :: s4 =>
                      if c3 =? UI then
                        match span_digits s4 with
                        | ([], _) => Some (JE :: ds ++ [JO], s3)
                        | (ds2, s5) => Some (JE :: ds ++ [JO; UI] ++ ds2, s5)
                        end
                      else Some (JE :: ds ++ [JO], s3)
                  | [] => Some (JE :: ds ++ [JO], s3)
                  end
                else None
            | [] => None
            end
        end
      else None
  | [] => None
  end.

(** [$] without MULTILINE: the end, or just before a final newline. *)
Definition at_dollar (s : pystr) : bool :=
  match s with
  | [] => true
  | [c] => c =? 10
  | _ => false
  end.

(** [re.match(r'제\d+조(?:의\d+)?$', part)] as a truth value.  With the
    anchor the optional group may have to be given up. *)
Definition is_article (part : pystr) : bool :=
  match part with
  | c :: s1 =>
      if c =? JE then
        match span_digits s1 with
        | ([], _) => false
        | (_, s2) =>
            match s2 with
            | c2 :: s3 =>
                if c2 =? JO then
                  match s3 with
                  | c3 :: s4 =>
                      if c3 =? UI then
                        match span_digits s4 with
                        | ([], _) => at_dollar s3
                        | (_, s5) => at_dollar s5 || at_dollar s3
                        end
                      else at_dollar s3
                  | [] => true
                  end
                else false
            | [] => false
            end
        end
      else false
  | [] => false
  end.

(** One match attempt of [[①-⑳]|\d+\.] at the head of [s]. *)
Definition match_clause (s : pystr) : option (pystr * pystr) :=
  match s with
  | c :: r =>
      if (9312 <=? c) && (c <=? 9331) then Some ([c], r)
      else
        match span_digits s with
        | ([], _) => None
        | (ds, c2 :: rest) => if c2 =? 46 then Some (ds ++ [46], rest) else None
        | (_, []) => None
        end
  | [] => None
  end.

(** Leftmost match of a pattern given by its match-at-head function:
    text before, matched text, text after. *)
Fixpoint re_search (m : pystr -> option (pystr * pystr)) (s : pystr)
  : option (pystr * pystr * pystr) :=
  match m s with
  | Some (hit, rest) => Some ([], hit, rest)
  | None =>
      match s with
      | [] => None
      | c :: r =>
          match re_search m r with
          | Some (pre, hit, rest) => Some (c :: pre, hit, rest)
          | None => None
          end
      end
  end.

(** [re.split] for a pattern that is one capturing group and never matches
    the empty string: the pieces between matches, interleaved with the
    matches.  [fuel] bounds the number of matches. *)
Fixpoint re_split_fuel (fuel : nat) (m : pystr -> option (pystr * pystr))
    (s : pystr) : list pystr :=
  match fuel with
  | O => [s]
  | S k =>
      match re_search m s with
      | Some (pre, hit, rest) => pre :: hit :: re_split_fuel k m rest
      | None => [s]
      end
  end.

Definition re_split (m : pystr -> option (pystr * pystr)) (s : pystr) : list pystr :=
  re_split_fuel (length s) m s.

(** ** The strategy object *)

(** The tokenizer interface the class uses: [encode] and [decode]. *)
Record Encoding : Type := {
  encode : pystr -> list Z;
  decode : list Z -> pystr
}.

Record LegalChunkingStrategy : Type := {
  chunk_size : Z;
  overlap : Z;
  encoder : Encoding
}.

(** The dictionaries [{"text": ...}] the splitters return. *)
Record TextDict : Type := { text : pystr }.

(** [range(start, stop, step)] as the list it iterates over. *)
Definition py_range (start stop step : Z) : result (list Z) :=
  if step =? 0 then raise ValueError
  else
    let n :=
      if 0 <? step
      then (if start <? stop then (stop - start - 1) / step + 1 else 0)
      else (if stop <? start then (start - stop - 1) / (- step) + 1 else 0) in
    ret (map (fun k => start + Z.of_nat k * step) (seq 0 (Z.to_nat n))).

(** A slice bound brought into [0, len], negative bounds counting from the
    end. *)
Definition clamp (len k : Z) : Z :=
  if k <? 0 then Z.max 0 (len + k) else Z.min len k.

(** [l[lo:hi]] *)
Definition slice {A} (l : list A) (lo hi : Z) : list A :=
  let len := Z.of_nat (length l) in
  let a := clamp len lo in
  let b := clamp len hi in
  take (Z.to_nat (b - a)) (drop (Z.to_nat a) l).

Section Methods.

Variable self : LegalChunkingStrategy.

Definition count_tokens (txt : pystr) : Z :=
  Z.of_nat (length (encode (encoder self) txt)).

Definition split_by_tokens (txt : pystr) (max_tokens : Z) : result (list TextDict) :=
  let tokens := encode (encoder self) txt in
  let* starts := py_range 0 (Z.of_nat (length tokens)) max_tokens in
  ret (map (fun i =>
              let chunk_tokens := slice tokens i (i + max_tokens) in
              {| text := decode (encoder self) chunk_tokens |})
           starts).

(** State of the two packing loops: [chunks], [current_chunk],
    [current_tokens]. *)
Definition pack_state : Type := list TextDict * pystr * Z.

(** [chunks.append({"text": current_chunk.strip()})] under
    [if current_chunk.strip() != article]. *)
Definition flush_paragraph (article : pystr) (chunks : list TextDict)
    (current_chunk : pystr) : list TextDict :=
  if decide (strip current_chunk = article) then chunks
  else chunks ++ [{| text := strip current_chunk |}].

(** The [for part in parts] loop of [_split_by_paragraph]. *)
Fixpoint paragraph_loop (article : pystr) (max_tokens : Z) (parts : list pystr)
    (st : pack_state) : result pack_state :=
  match parts with
  | [] => ret st
  | part :: rest =>
      let '(chunks, current_chunk, current_tokens) := st in
      if decide (strip part = []) then paragraph_loop article max_tokens rest st
      else
        let part_tokens := count_tokens part in
        if max_tokens <? part_tokens then
          let chunks := flush_paragraph article chunks current_chunk in
          let* token_chunks := split_by_tokens (article ++ [32] ++ part) max_tokens in
          paragraph_loop article max_tokens rest
            (chunks ++ token_chunks, article ++ [32], count_tokens (article ++ [32]))
        else if current_tokens + part_tokens <=? max_tokens then
          paragraph_loop article max_tokens rest
            (chunks, current_chunk ++ part ++ [32], current_tokens + part_tokens)
        else
          let chunks := flush_paragraph article chunks current_chunk in
          let current_chunk := article ++ [32] ++ part ++ [32] in
          paragraph_loop article max_tokens rest
            (chunks, current_chunk, count_tokens current_chunk)
  end.

Definition _split_by_paragraph (article content : pystr) (max_tokens : Z)
  : result (list TextDict) :=
  let parts := re_split match_clause content in
  let current_chunk := article ++ [32] in
  let* (chunks, current_chunk, _) :=
    paragraph_loop article max_tokens parts
      ([], current_chunk, count_tokens current_chunk) in
  ret (flush_paragraph article chunks current_chunk).

(** [if current_chunk: chunks.append({"text": current_chunk})] *)
Definition flush (chunks : list TextDict) (current_chunk : pystr) : list TextDict :=
  match current_chunk with
  | [] => chunks
  | _ => chunks ++ [{| text := current_chunk |}]
  end.

(** [current_chunk += (" " if current_chunk else "") + piece] *)
Definition join (current_chunk piece : pystr) : pystr :=
  current_chunk ++ (match current_chunk with [] => [] | _ => [32] end) ++ piece.

(** Body of the [while] loop for a part that is an article marker. *)
Definition on_article (max_tokens : Z) (article content : pystr) (st : pack_state)
  : result pack_state :=
  let '(chunks, current_chunk, current_tokens) := st in
  let full_text := article ++ [32] ++ content in
  let text_tokens := count_tokens full_text in
  if text_tokens <=? max_tokens then
    if current_tokens + text_tokens <=? max_tokens then
      ret (chunks, join current_chunk full_text, current_tokens + text_tokens)
    else
      ret (flush chunks current_chunk, full_text, text_tokens)
  else
    let chunks := flush chunks current_chunk in
    let* para_chunks := _split_by_paragraph article content max_tokens in
    ret (chunks ++ para_chunks, [], 0).

(** Body of the [while] loop for any other non-empty part. *)
Definition on_prose (max_tokens : Z) (part : pystr) (st : pack_state)
  : result pack_state :=
  let '(chunks, current_chunk, current_tokens) := st in
  let part_tokens := count_tokens part in
  if max_tokens <? part_tokens then
    let chunks := flush chunks current_chunk in
    let* token_chunks := split_by_tokens part max_tokens in
    ret (chunks ++ token_chunks, [], 0)
  else if current_tokens + part_tokens <=? max_tokens then
    ret (chunks, join current_chunk part, current_tokens + part_tokens)
  else
    ret (flush chunks current_chunk, part, part_tokens).

(** The [while i < len(parts)] loop: [parts] is [parts[i:]]; an article
    marker consumes two entries ([i += 2]), anything else one. *)
Fixpoint article_loop (max_tokens : Z) (parts : list pystr) (st : pack_state)
  : result pack_state :=
  match parts with
  | [] => ret st
  | p :: rest =>
      let part := strip p in
      if decide (part = []) then article_loop max_tokens rest st
      else if is_article part then
        let content := match rest with c :: _ => strip c | [] => [] end in
        let* st' := on_article max_tokens part content st in
        match rest with
        | [] => ret st'
        | _ :: rest' => article_loop max_tokens rest' st'
        end
      else
        let* st' := on_prose max_tokens part st in
        article_loop max_tokens rest st'
  end.

Definition split_by_article (txt : pystr) (max_tokens : Z) : result (list TextDict) :=
  let parts := re_split match_article txt in
  let* (chunks, current_chunk, _) := article_loop max_tokens parts ([], [], 0) in
  ret (flush chunks current_chunk).

End Methods.

(** ** Chunks, the assembler and the overlap pass *)

Record Metadata : Type := {
  doc_id : jval;
  doc_name : jval;
  page : jval;
  chunk_tokens : Z;
  has_overlap : option bool   (* [None]: the key is absent *)
}.

Record Chunk : Type := {
  chunk_id : pystr;
  content : pystr;
  metadata : Metadata
}.

Fixpoint uint_codes (d : uint) : pystr :=
  match d with
  | Nil => []
  | D0 d => 48 :: uint_codes d
  | D1 d => 49 :: uint_codes d
  | D2 d => 50 :: uint_codes d
  | D3 d => 51 :: uint_codes d
  | D4 d => 52 :: uint_codes d
  | D5 d => 53 :: uint_codes d
  | D6 d => 54 :: uint_codes d
  | D7 d => 55 :: uint_codes d
  | D8 d => 56 :: uint_codes d
  | D9 d => 57 :: uint_codes d
  end.

(** [d] with leading zeros up to [width] digits. *)
Definition zero_pad (width : nat) (d : uint) : uint :=
  Nat.iter (width - length (uint_codes d)) D0 d.

(** [f"{n:05d}"]: sign-aware zero padding to five characters. *)
Definition format_05d (n : Z) : pystr :=
  if n <? 0 then 45 :: uint_codes (zero_pad 4 (N.to_uint (Z.to_N (- n))))
  else uint_codes (zero_pad 5 (N.to_uint (Z.to_N n))).

(** [block[key]] *)
Definition getitem (block : gmap string jval) (key : string) : result jval :=
  match block !! key with
  | Some v => ret v
  | None => raise (KeyError key)
  end.

(** [block.get(key, dflt)] *)
Definition get (block : gmap string jval) (key : string) (dflt : jval) : jval :=
  default dflt (block !! key).

(** [\n\n[다음 내용 미리보기]\n] *)
Definition preview_header : pystr := [10; 10] ++ py "[다음 내용 미리보기]" ++ [10].

Section Pipeline.

Variable self : LegalChunkingStrategy.

(** The [for chunk_data in text_chunks] loop: the chunks built for one
    block, and the counter after them. *)
Fixpoint emit_chunks (block : gmap string jval) (text_chunks : list TextDict)
    (chunk_counter : Z) : result (list Chunk * Z) :=
  match text_chunks with
  | [] => ret ([], chunk_counter)
  | chunk_data :: rest =>
      let chunk_text := text chunk_data in
      let* d := getitem block "doc_id" in
      let* n := getitem block "doc_name" in
      let chunk :=
        {| chunk_id := py "chunk_" ++ format_05d chunk_counter;
           content := chunk_text;
           metadata :=
             {| doc_id := d;
                doc_name := n;
                page := get block "page" (JInt 0);
                chunk_tokens := count_tokens self chunk_text;
                has_overlap := None |} |} in
      let* (more, counter') := emit_chunks block rest (chunk_counter + 1) in
      ret (chunk :: more, counter')
  end.

(** The [for idx, block in enumerate(text_blocks, 1)] loop: [all_chunks]
    contributed by the remaining blocks. *)
Fixpoint assemble (text_blocks : list (gmap string jval)) (chunk_counter : Z)
  : result (list Chunk) :=
  match text_blocks with
  | [] => ret []
  | block :: rest =>
      let* t := getitem block "text" in
      match t with
      | JStr txt =>
          let* text_chunks := split_by_article self txt (chunk_size self) in
          let* (chunks, counter') := emit_chunks block text_chunks chunk_counter in
          let* more := assemble rest counter' in
          ret (chunks ++ more)
      | _ => raise TypeError
      end
  end.

(** The text appended to chunk [i], if any: [None] when the code leaves
    [content] as it is. *)
Definition preview (chunks : list Chunk) (i : nat) (chunk : Chunk) : option pystr :=
  if Z.of_nat i <? Z.of_nat (length chunks) - 1 then
    match chunks !! S i with
    | Some next_chunk =>
        if py_eq (doc_id (metadata next_chunk)) (doc_id (metadata chunk)) then
          let next_content := content next_chunk in
          let tokens := encode (encoder self) next_content in
          if overlap self <? Z.of_nat (length tokens) then
            let overlap_tokens := slice tokens 0 (overlap self) in
            let overlap_text := decode (encoder self) overlap_tokens in
            Some (preview_header ++ overlap_text ++ py "...")
          else None
        else None
    | None => None
    end
  else None.

(** One iteration of [for i, chunk in enumerate(chunks)]. *)
Definition overlap_chunk (chunks : list Chunk) (i : nat) (chunk : Chunk) : Chunk :=
  let content' :=
    match preview chunks i chunk with
    | Some extra => content chunk ++ extra
    | None => content chunk
    end in
  {| chunk_id := chunk_id chunk;
     content := content';
     metadata :=
       {| doc_id := doc_id (metadata chunk);
          doc_name := doc_name (metadata chunk);
          page := page (metadata chunk);
          has_overlap := Some (Z.of_nat i <? Z.of_nat (length chunks) - 1);
          chunk_tokens := count_tokens self content' |} |}.

Definition apply_overlap (chunks : list Chunk) : list Chunk :=
  match chunks with
  | [] => chunks
  | _ => if overlap self =? 0 then chunks else imap (overlap_chunk chunks) chunks
  end.

(** The method from [text_blocks] on (the JSON file is read before). *)
Definition process_from_unified_json (text_blocks : list (gmap string jval))
  : result (list Chunk) :=
  let* all_chunks := assemble text_blocks 1 in
  ret (apply_overlap all_chunks).

End Pipeline.

(** ** Notions used in the statements *)

(** A tokenizer with one token per code point, used for concrete runs. *)
Definition char_encoding : Encoding := {| encode := fun s => s; decode := fun t => t |}.

Definition strategy (size ov : Z) : LegalChunkingStrategy :=
  {| chunk_size := size; overlap := ov; encoder := char_encoding |}.

(** A well-formed text block. *)
Definition block_of (d n : string) (p : Z) (t : string) : gmap string jval :=
  {[ "doc_id" := JStr (py d); "doc_name" := JStr (py n); "page" := JInt p;
     "text" := JStr (py t) ]}.

(** A chunk as it stands before the overlap pass. *)
Definition chunk_of (id d : string) (t : string) : Chunk :=
  {| chunk_id := py id; content := py t;
     metadata := {| doc_id := JStr (py d); doc_name := JStr (py "law"); page := JInt 1;
                    chunk_tokens := Z.of_nat (length (py t)); has_overlap := None |} |}.

(** The windows of width [m] that start at [0], [m], ..., [(n-1) * m]. *)
Definition windows {A} (m n : nat) (l : list A) : list (list A) :=
  map (fun k => take m (drop (k * m) l)) (seq 0 n).

(** Number of windows: [ceil(len / m)]. *)
Definition window_count (len m : Z) : nat :=
  Z.to_nat (if 0 <? len then (len - 1) / m + 1 else 0).

(** What the assembler writes into the chunk it builds for [block] when the
    counter stands at [n]. *)
Definition built_from (self : LegalChunkingStrategy) (block : gmap string jval)
    (n : Z) (c : Chunk) : Prop :=
  chunk_id c = py "chunk_" ++ format_05d n
  /\ block !! "doc_id" = Some (doc_id (metadata c))
  /\ block !! "doc_name" = Some (doc_name (metadata c))
  /\ page (metadata c) = get block "page" (JInt 0)
  /\ chunk_tokens (metadata c) = count_tokens self (content c)
  /\ has_overlap (metadata c) = None.

(** A match-at-head function that never matches the empty string. *)
Definition consuming (m : pystr -> option (pystr * pystr)) : Prop :=
  forall s hit rest, m s = Some (hit, rest) -> (length rest < length s)%nat.

(** ** Where the chunks of a run come from *)

(** The texts [split_by_article] returns for a block, in order; nothing when
    the block cannot be split. *)
Definition block_texts (self : LegalChunkingStrategy) (block : gmap string jval)
  : list TextDict :=
  match block !! "text" with
  | Some (JStr txt) =>
      match split_by_article self txt (chunk_size self) with
      | inr text_chunks => text_chunks
      | inl _ => []
      end
  | _ => []
  end.

(** Every block paired with each of its texts, blocks in list order. *)
Definition sources (self : LegalChunkingStrategy) (blocks : list (gmap string jval))
  : list (gmap string jval * TextDict) :=
  flat_map (fun block => map (pair block) (block_texts self block)) blocks.

(** Chunk [c] was made from the text [tc] of [block]. *)
Definition from_block (block : gmap string jval) (tc : TextDict) (c : Chunk) : Prop :=
  (exists extra, content c = text tc ++ extra)
  /\ block !! "doc_id" = Some (doc_id (metadata c))
  /\ block !! "doc_name" = Some (doc_name (metadata c))
  /\ page (metadata c) = default (JInt 0) (block !! "page").

(** ** Strings: [in], [endswith], [sorted] *)

(** [s.startswith(p)] *)
Fixpoint startswith (p s : pystr) : bool :=
  match p, s with
  | [], _ => true
  | _ :: _, [] => false
  | a :: p', b :: s' => (a =? b) && startswith p' s'
  end.

(** [needle in hay] for strings. *)
Fixpoint contains (needle hay : pystr) : bool :=
  startswith needle hay
  || match hay with
     | [] => false
     | _ :: hay' => contains needle hay'
     end.

(** [s.endswith(suffix)] *)
Definition endswith (s suffix : pystr) : bool := startswith (rev suffix) (rev s).

(** [a <= b] on strings: code points compared from the left. *)
Fixpoint str_leb (a b : pystr) : bool :=
  match a, b with
  | [], _ => true
  | _ :: _, [] => false
  | x :: a', y :: b' =>
      if x <? y then true else if y <? x then false else str_leb a' b'
  end.

Fixpoint insert_sorted (x : pystr) (l : list pystr) : list pystr :=
  match l with
  | [] => [x]
  | y :: l' => if str_leb x y then x :: l else y :: insert_sorted x l'
  end.

(** [sorted(names)] *)
Definition sorted (names : list pystr) : list pystr := foldr insert_sorted [] names.

(** [f"{n:03d}"] *)
Definition format_03d (n : Z) : pystr :=
  if n <? 0 then 45 :: uint_codes (zero_pad 2 (N.to_uint (Z.to_N (- n))))
  else uint_codes (zero_pad 3 (N.to_uint (Z.to_N n))).

(** ** The class over a tokenizer that can raise *)

(** tiktoken's [encode] raises on some texts ([ValueError] when the text holds
    a special token that is not allowed), and an [Encoding] object may raise
    in [decode] as well.  [Raising] is the class once more, method by method
    and in the evaluation order of the source, with [encode] and [decode]
    fallible: an exception of the tokenizer leaves the method at the call. *)
Module Raising.

Record Encoding : Type := {
  encode : pystr -> result (list Z);
  decode : list Z -> result pystr
}.

Record LegalChunkingStrategy : Type := {
  chunk_size : Z;
  overlap : Z;
  encoder : Encoding
}.

Section Methods.

Variable self : LegalChunkingStrategy.

Definition count_tokens (txt : pystr) : result Z :=
  let* tokens := encode (encoder self) txt in
  ret (Z.of_nat (length tokens)).

(** The [for i in range(...)] loop of [split_by_tokens], [starts] being the
    values of [i] still to come. *)
Fixpoint decode_windows (tokens : list Z) (max_tokens : Z) (starts : list Z)
  : result (list TextDict) :=
  match starts with
  | [] => ret []
  | i :: rest =>
      let chunk_tokens := slice tokens i (i + max_tokens) in
      let* chunk_text := decode (encoder self) chunk_tokens in
      let* more := decode_windows tokens max_tokens rest in
      ret ({| text := chunk_text |} :: more)
  end.

Definition split_by_tokens (txt : pystr) (max_tokens : Z) : result (list TextDict) :=
  let* tokens := encode (encoder self) txt in
  let* starts := py_range 0 (Z.of_nat (length tokens)) max_tokens in
  decode_windows tokens max_tokens starts.

Fixpoint paragraph_loop (article : pystr) (max_tokens : Z) (parts : list pystr)
    (st : pack_state) : result pack_state :=
  match parts with
  | [] => ret st
  | part :: rest =>
      let '(chunks, current_chunk, current_tokens) := st in
      if decide (strip part = []) then paragraph_loop article max_tokens rest st
      else
        let* part_tokens := count_tokens part in
        if max_tokens <? part_tokens then
          let chunks := flush_paragraph article chunks current_chunk in
          let* token_chunks := split_by_tokens (article ++ [32] ++ part) max_tokens in
          let* current_tokens := count_tokens (article ++ [32]) in
          paragraph_loop article max_tokens rest
            (chunks ++ token_chunks, article ++ [32], current_tokens)
        else if current_tokens + part_tokens <=? max_tokens then
          paragraph_loop article max_tokens rest
            (chunks, current_chunk ++ part ++ [32], current_tokens + part_tokens)
        else
          let chunks := flush_paragraph article chunks current_chunk in
          let current_chunk := article ++ [32] ++ part ++ [32] in
          let* current_tokens := count_tokens current_chunk in
          paragraph_loop article max_tokens rest (chunks, current_chunk, current_tokens)
  end.

Definition _split_by_paragraph (article content : pystr) (max_tokens : Z)
  : result (list TextDict) :=
  let parts := re_split match_clause content in
  let current_chunk := article ++ [32] in
  let* current_tokens := count_tokens current_chunk in
  let* (chunks, current_chunk, _) :=
    paragraph_loop article max_tokens parts ([], current_chunk, current_tokens) in
  ret (flush_paragraph article chunks current_chunk).

Definition on_article (max_tokens : Z) (article content : pystr) (st : pack_state)
  : result pack_state :=
  let '(chunks, current_chunk, current_tokens) := st in
  let full_text := article ++ [32] ++ content in
  let* text_tokens := count_tokens full_text in
  if text_tokens <=? max_tokens then
    if current_tokens + text_tokens <=? max_tokens then
      ret (chunks, join current_chunk full_text, current_tokens + text_tokens)
    else
      ret (flush chunks current_chunk, full_text, text_tokens)
  else
    let chunks := flush chunks current_chunk in
    let* para_chunks := _split_by_paragraph article content max_tokens in
    ret (chunks ++ para_chunks, [], 0).

Definition on_prose (max_tokens : Z) (part : pystr) (st : pack_state)
  : result pack_state :=
  let '(chunks, current_chunk, current_tokens) := st in
  let* part_tokens := count_tokens part in
  if max_tokens <? part_tokens then
    let chunks := flush chunks current_chunk in
    let* token_chunks := split_by_tokens part max_tokens in
    ret (chunks ++ token_chunks, [], 0)
  else if current_tokens + part_tokens <=? max_tokens then
    ret (chunks, join current_chunk part, current_tokens + part_tokens)
  else
    ret (flush chunks current_chunk, part, part_tokens).

Fixpoint article_loop (max_tokens : Z) (parts : list pystr) (st : pack_state)
  : result pack_state :=
  match parts with
  | [] => ret st
  | p :: rest =>
      let part := strip p in
      if decide (part = []) then article_loop max_tokens rest st
      else if is_article part then
        let content := match rest with c :: _ => strip c | [] => [] end in
        let* st' := on_article max_tokens part content st in
        match rest with
        | [] => ret st'
        | _ :: rest' => article_loop max_tokens rest' st'
        end
      else
        let* st' := on_prose max_tokens part st in
        article_loop max_tokens rest st'
  end.

Definition split_by_article (txt : pystr) (max_tokens : Z) : result (list TextDict) :=
  let parts := re_split match_article txt in
  let* (chunks, current_chunk, _) := article_loop max_tokens parts ([], [], 0) in
  ret (flush chunks current_chunk).

(** The dictionary display is evaluated from left to right: [block["doc_id"]],
    [block["doc_name"]], [block.get("page", 0)], then [count_tokens]. *)
Fixpoint emit_chunks (block : gmap string jval) (text_chunks : list TextDict)
    (chunk_counter : Z) : result (list Chunk * Z) :=
  match text_chunks with
  | [] => ret ([], chunk_counter)
  | chunk_data :: rest =>
      let chunk_text := text chunk_data in
      let* d := getitem block "doc_id" in
      let* n := getitem block "doc_name" in
      let* tokens := count_tokens chunk_text in
      let chunk :=
        {| chunk_id := py "chunk_" ++ format_05d chunk_counter;
           content := chunk_text;
           metadata :=
             {| doc_id := d;
                doc_name := n;
                page := get block "page" (JInt 0);
                chunk_tokens := tokens;
                has_overlap := None |} |} in
      let* (more, counter') := emit_chunks block rest (chunk_counter + 1) in
      ret (chunk :: more, counter')
  end.

Fixpoint assemble (text_blocks : list (gmap string jval)) (chunk_counter : Z)
  : result (list Chunk) :=
  match text_blocks with
  | [] => ret []
  | block :: rest =>
      let* t := getitem block "text" in
      match t with
      | JStr txt =>
          let* text_chunks := split_by_article txt (chunk_size self) in
          let* (chunks, counter') := emit_chunks block text_chunks chunk_counter in
          let* more := assemble rest counter' in
          ret (chunks ++ more)
      | _ => raise TypeError
      end
  end.

Definition preview (chunks : list Chunk) (i : nat) (chunk : Chunk)
  : result (option pystr) :=
  if Z.of_nat i <? Z.of_nat (length chunks) - 1 then
    match chunks !! S i with
    | Some next_chunk =>
        if py_eq (doc_id (metadata next_chunk)) (doc_id (metadata chunk)) then
          let next_content := content next_chunk in
          let* tokens := encode (encoder self) next_content in
          if overlap self <? Z.of_nat (length tokens) then
            let overlap_tokens := slice tokens 0 (overlap self) in
            let* overlap_text := decode (encoder self) overlap_tokens in
            ret (Some (preview_header ++ overlap_text ++ py "..."))
          else ret None
        else ret None
    | None => ret None
    end
  else ret None.

Definition overlap_chunk (chunks : list Chunk) (i : nat) (chunk : Chunk)
  : result Chunk :=
  let* extra := preview chunks i chunk in
  let content' :=
    match extra with
    | Some extra => content chunk ++ extra
    | None => content chunk
    end in
  let* tokens := count_tokens content' in
  ret {| chunk_id := chunk_id chunk;
         content := content';
         metadata :=
           {| doc_id := doc_id (metadata chunk);
              doc_name := doc_name (metadata chunk);
              page := page (metadata chunk);
              has_overlap := Some (Z.of_nat i <? Z.of_nat (length chunks) - 1);
              chunk_tokens := tokens |} |}.

(** The [for i, chunk in enumerate(chunks)] loop from position [i] on. *)
Fixpoint overlap_loop (chunks : list Chunk) (i : nat) (todo : list Chunk)
  : result (list Chunk) :=
  match todo with
  | [] => ret []
  | chunk :: rest =>
      let* c := overlap_chunk chunks i chunk in
      let* more := overlap_loop chunks (S i) rest in
      ret (c :: more)
  end.

Definition apply_overlap (chunks : list Chunk) : result (list Chunk) :=
  match chunks with
  | [] => ret chunks
  | _ => if overlap self =? 0 then ret chunks else overlap_loop chunks 0 chunks
  end.

Definition process_from_unified_json (text_blocks : list (gmap string jval))
  : result (list Chunk) :=
  let* all_chunks := assemble text_blocks 1 in
  apply_overlap all_chunks.

End Methods.

(** One token per code point; [encode] raises [ValueError] on a text that
    holds the special token [<|endoftext|>], as tiktoken does by default. *)
Definition special_encoding : Encoding :=
  {| encode := fun s =>
       if contains (py "<|endoftext|>") s then raise ValueError else ret s;
     decode := fun t => ret t |}.

Definition strategy (size ov : Z) : LegalChunkingStrategy :=
  {| chunk_size := size; overlap := ov; encoder := special_encoding |}.

End Raising.

(** The exception [e] is one the tokenizer raises on some input. *)
Definition tokenizer_raises (enc : Raising.Encoding) (e : exn) : Prop :=
  (exists txt, Raising.encode enc txt = raise e)
  \/ (exists tokens, Raising.decode enc tokens = raise e).

(** The tokenizer raises on no input. *)
Definition tokenizer_returns (enc : Raising.Encoding) : Prop :=
  (forall txt, exists tokens, Raising.encode enc txt = ret tokens)
  /\ (forall tokens, exists txt, Raising.decode enc tokens = ret txt).

(** What a fallible tokenizer computes where it returns (the value where it
    raises is never used: the method has been left). *)
Definition returned (enc : Raising.Encoding) : Encoding :=
  {| encode := fun txt =>
       match Raising.encode enc txt with inr tokens => tokens | inl _ => [] end;
     decode := fun tokens =>
       match Raising.decode enc tokens with inr txt => txt | inl _ => [] end |}.

Definition returned_strategy (self : Raising.LegalChunkingStrategy)
  : LegalChunkingStrategy :=
  {| chunk_size := Raising.chunk_size self;
     overlap := Raising.overlap self;
     encoder := returned (Raising.encoder self) |}.

(** [m] either stops with an exception of the tokenizer or does what [m0]
    does. *)
Definition agrees {A} (enc : Raising.Encoding) (m m0 : result A) : Prop :=
  (exists e, m = raise e /\ tokenizer_raises enc e) \/ m = m0.

(** ** [s2_DocumentMerger.py] *)

Module DocumentMerger.

(** What [create_unified_structure] can raise. *)
Inductive error : Type :=
  | KeyError (key : string)
  | AttributeError.

(** An entry of [self.documents]: the dictionary with the four keys that
    [load_all_documents] builds. *)
Record Document : Type := {
  doc_id : jval;
  doc_name : jval;
  total_pages : jval;
  pages : list (gmap string jval)
}.

(** What [json.load] gives for a [*_processed.json] file, as far as the
    loader reads it; [None] is an absent key, [pages] an array of objects. *)
Record ProcessedFile : Type := {
  file_name : option jval;
  file_total_pages : option jval;
  file_pages : option (list (gmap string jval))
}.

(** One round of [for i, json_file in enumerate(sorted(json_files), 1)]:
    [read] is [None] when opening or parsing the file raises; any exception
    in the [try] block skips the file. *)
Definition load_one (read : pystr -> option ProcessedFile) (i : Z) (json_file : pystr)
  : option Document :=
  match read json_file with
  | Some data =>
      match file_name data, file_total_pages data, file_pages data with
      | Some name, Some total, Some pgs =>
          Some {| doc_id := JStr (py "doc_" ++ format_03d i);
                  doc_name := name;
                  total_pages := total;
                  pages := pgs |}
      | _, _, _ => None
      end
  | None => None
  end.

Fixpoint load_loop (read : pystr -> option ProcessedFile) (files : list pystr)
    (i : Z) (documents : list Document) : list Document :=
  match files with
  | [] => documents
  | json_file :: rest =>
      match load_one read i json_file with
      | Some doc_info => load_loop read rest (i + 1) (documents ++ [doc_info])
      | None => load_loop read rest (i + 1) documents
      end
  end.

(** [load_all_documents]: [listing] is [os.listdir(self.processed_dir)],
    [documents] is [self.documents] before the call; the result is
    [self.documents] after it. *)
Definition load_all_documents (listing : list pystr)
    (read : pystr -> option ProcessedFile) (documents : list Document)
  : list Document :=
  let json_files := filter (fun f => endswith f (py "_processed.json") = true) listing in
  load_loop read (sorted json_files) 1 documents.

Record UnifiedMetadata : Type := {
  total_documents : Z;
  documents : list (gmap string jval)
}.

Record UnifiedData : Type := {
  metadata : UnifiedMetadata;
  text_blocks : list (gmap string jval)
}.

(** [not page.get("content", "").strip()] *)
Definition page_is_blank (page : gmap string jval) : error + bool :=
  match default (JStr []) (page !! "content") with
  | JStr s => inr (bool_decide (strip s = []))
  | _ => inl AttributeError
  end.

(** The [for page in doc["pages"]] loop: the blocks it appends and the
    counter after it. *)
Fixpoint page_loop (doc : Document) (pgs : list (gmap string jval))
    (block_counter : Z) : error + (list (gmap string jval) * Z) :=
  match pgs with
  | [] => inr ([], block_counter)
  | page :: rest =>
      match page_is_blank page with
      | inl e => inl e
      | inr true => page_loop doc rest block_counter
      | inr false =>
          match page !! "page_number" with
          | None => inl (KeyError "page_number")
          | Some number =>
              match page !! "content" with
              | None => inl (KeyError "content")
              | Some body =>
                  let text_block : gmap string jval :=
                    {[ "block_id" := JStr (py "block_" ++ format_05d block_counter);
                       "doc_id" := doc_id doc;
                       "doc_name" := doc_name doc;
                       "page" := number;
                       "text" := body ]} in
                  match page_loop doc rest (block_counter + 1) with
                  | inl e => inl e
                  | inr (more, counter') => inr (text_block :: more, counter')
                  end
              end
          end
      end
  end.

(** The [for doc in self.documents] loop: the document entries and the text
    blocks. *)
Fixpoint doc_loop (docs : list Document) (block_counter : Z)
  : error + (list (gmap string jval) * list (gmap string jval)) :=
  match docs with
  | [] => inr ([], [])
  | doc :: rest =>
      let doc_meta : gmap string jval :=
        {[ "doc_id" := doc_id doc; "doc_name" := doc_name doc;
           "total_pages" := total_pages doc ]} in
      match page_loop doc (pages doc) block_counter with
      | inl e => inl e
      | inr (blocks, counter') =>
          match doc_loop rest counter' with
          | inl e => inl e
          | inr (metas, more) => inr (doc_meta :: metas, blocks ++ more)
          end
      end
  end.

Definition create_unified_structure (docs : list Document) : error + UnifiedData :=
  match doc_loop docs 1 with
  | inl e => inl e
  | inr (metas, blocks) =>
      inr {| metadata := {| total_documents := Z.of_nat (length docs);
                            documents := metas |};
             text_blocks := blocks |}
  end.

(** A page the page loop gets past: no [content], or a string that is blank
    or comes with a [page_number]. *)
Definition page_ok (page : gmap string jval) : Prop :=
  page !! "content" = None
  \/ exists s, page !! "content" = Some (JStr s)
               /\ (strip s = [] \/ is_Some (page !! "page_number")).

(** The page has text left after stripping. *)
Definition page_kept (page : gmap string jval) : bool :=
  match page_is_blank page with
  | inr false => true
  | _ => false
  end.

(** The pages of a document that are not skipped. *)
Definition kept_pages (doc : Document) : list (gmap string jval) :=
  filter (fun page => page_kept page = true) (pages doc).

End DocumentMerger.

(** ** The verdict box of [TestQAApp.py] *)

Inductive box : Type := st_success | st_error | st_warning.

(** The [if "적법" in 결론 ... elif "부적법" in 결론 ... else] chain. *)
Definition verdict_box (conclusion : pystr) : box :=
  if contains (py "적법") conclusion then st_success
  else if contains (py "부적법") conclusion then st_error
  else st_warning.

(** * Properties *)

(** ** Runs on concrete inputs *)

Example re_split_ex :
  re_split match_article (py "a 제1조 b 제12조의3 c제조") =
  [py "a "; py "제1조"; py " b "; py "제12조의3"; py " c제조"].
Proof. vm_compute. reflexivity. Qed.

Example re_split_clause_ex :
  re_split match_clause (py "① x 12. y 3") =
  [[]; py "①"; py " x "; py "12."; py " y 3"].
Proof. vm_compute. reflexivity. Qed.

Example strip_ex : strip (py "  a b ") = py "a b".
Proof. vm_compute. reflexivity. Qed.

Example split_by_article_ex :
  split_by_article (strategy 10 0) (py "aaaaa 제1조 b") 10 = ret [{| text := py "aaaaa 제1조 b" |}].
Proof. vm_compute. reflexivity. Qed.

Example process_ex :
  process_from_unified_json (strategy 10 2)
    [block_of "doc_001" "law" 3 "제1조 aaa 제2조 bbbbbb"] =
  ret [ {| chunk_id := py "chunk_00001";
           content := py "제1조 aaa" ++ preview_header ++ py "제2...";
           metadata := {| doc_id := JStr (py "doc_001"); doc_name := JStr (py "law");
                          page := JInt 3; chunk_tokens := 27; has_overlap := Some true |} |};
        {| chunk_id := py "chunk_00002";
           content := py "제2조 bbbbbb";
           metadata := {| doc_id := JStr (py "doc_001"); doc_name := JStr (py "law");
                          page := JInt 3; chunk_tokens := 10; has_overlap := Some false |} |} ].
Proof. vm_compute. reflexivity. Qed.

Example format_05d_ex :
  format_05d 7 = py "00007" /\ format_05d 12345 = py "12345"
  /\ format_05d 123456 = py "123456" /\ format_05d (-5) = py "-0005".
Proof. vm_compute. repeat split. Qed.

Example is_article_ex :
  map is_article
    [py "제1조"; py "제1조의2"; py "제1조의"; py "제1조의2x"; py "제1조" ++ [10];
     py "제1조의2" ++ [10]; py "제조"; py "제12조의"] =
  [true; true; false; false; true; true; false; false].
Proof. vm_compute. reflexivity. Qed.

Example re_split_edge_ex :
  re_split match_article (py "제1조의x제2조의34") =
    [[]; py "제1조"; py "의x"; py "제2조의34"; []]
  /\ re_split match_article [] = [[]].
Proof. vm_compute. split; reflexivity. Qed.

Example split_by_paragraph_ex :
  _split_by_paragraph (strategy 12 0) (py "제1조") (py "① aaa ② bbb 3. cc") 12 =
  ret [ {| text := py "제1조 ①  aaa  ②" |}; {| text := py "제1조  bbb  3." |};
        {| text := py "제1조  cc" |} ].
Proof. vm_compute. reflexivity. Qed.

(** ** The fuel of [re_split] is enough *)

Lemma span_digits_length s :
  (length (span_digits s).2 <= length s)%nat.
Proof.
  induction s as [|c s IH]; cbn [span_digits]; [cbn; lia|].
  destruct (isdecimal c); [|cbn; lia].
  destruct (span_digits s) as [ds rest]. cbn in *. lia.
Qed.

Lemma match_article_consuming : consuming match_article.
Proof.
  intros s hit rest. unfold match_article.
  destruct s as [|c s1]; [discriminate|].
  destruct (c =? JE); [|discriminate].
  pose proof (span_digits_length s1) as H1.
  destruct (span_digits s1) as [[|d ds] s2]; [discriminate|]. cbn [snd] in H1.
  destruct s2 as [|c2 s3]; [discriminate|].
  destruct (c2 =? JO); [|discriminate].
  cbn [length] in *.
  destruct s3 as [|c3 s4]; [intros [= <- <-]; cbn; lia|].
  destruct (c3 =? UI); [|intros [= <- <-]; cbn [length] in *; lia].
  pose proof (span_digits_length s4) as H4.
  destruct (span_digits s4) as [[|d2 ds2] s5]; cbn [snd] in H4;
    intros [= <- <-]; cbn [length] in *; lia.
Qed.

Lemma match_clause_consuming : consuming match_clause.
Proof.
  intros s hit rest. unfold match_clause.
  destruct s as [|c r]; [discriminate|].
  destruct ((9312 <=? c) && (c <=? 9331)); [intros [= <- <-]; cbn; lia|].
  pose proof (span_digits_length (c :: r)) as H.
  destruct (span_digits (c :: r)) as [[|d ds] [|c2 rest']]; try discriminate.
  cbn [snd] in H. destruct (c2 =? 46); [|discriminate].
  intros [= <- <-]. cbn [length] in *. lia.
Qed.

Lemma re_search_consuming m s pre hit rest :
  consuming m -> re_search m s = Some (pre, hit, rest) ->
  (length rest < length s)%nat.
Proof.
  intros Hm. revert pre. induction s as [|c s IH]; intros pre; cbn [re_search].
  - destruct (m []) as [[h r]|] eqn:E; [|discriminate].
    apply Hm in E. cbn in E. lia.
  - destruct (m (c :: s)) as [[h r]|] eqn:E.
    + intros [= <- <- <-]. apply Hm in E. exact E.
    + destruct (re_search m s) as [[[p h] r]|]; [|discriminate].
      intros [= <- <- <-]. specialize (IH _ eq_refl). cbn [length]. lia.
Qed.

Lemma re_split_fuel_enough m : consuming m ->
  forall f1 f2 s, (length s <= f1)%nat -> (length s <= f2)%nat ->
    re_split_fuel f1 m s = re_split_fuel f2 m s.
Proof.
  intros Hm. induction f1 as [|f1 IH]; intros f2 s H1 H2.
  - destruct f2 as [|f2]; [reflexivity|]. cbn [re_split_fuel].
    destruct (re_search m s) as [[[p h] r]|] eqn:E; [|reflexivity].
    apply re_search_consuming in E; [lia | exact Hm].
  - destruct f2 as [|f2]; cbn [re_split_fuel].
    + destruct (re_search m s) as [[[p h] r]|] eqn:E; [|reflexivity].
      apply re_search_consuming in E; [lia | exact Hm].
    + destruct (re_search m s) as [[[p h] r]|] eqn:E; [|reflexivity].
      apply re_search_consuming in E; [|exact Hm].
      do 2 f_equal. apply IH; lia.
Qed.

(** [re_split] is the unfolding of the search: more fuel changes nothing. *)
Lemma re_split_unfold m s : consuming m ->
  re_split m s =
  match re_search m s with
  | Some (pre, hit, rest) => pre :: hit :: re_split m rest
  | None => [s]
  end.
Proof.
  intros Hm. unfold re_split.
  rewrite (re_split_fuel_enough m Hm (length s) (S (length s)) s) by lia.
  cbn [re_split_fuel].
  destruct (re_search m s) as [[[p h] r]|] eqn:E; [|reflexivity].
  apply re_search_consuming in E; [|exact Hm].
  do 2 f_equal. apply re_split_fuel_enough; [exact Hm | lia | lia].
Qed.

(** ** Forced token windows *)

Section Windows.

Context {A : Type}.
Implicit Types (l : list A) (m n : nat).

Lemma windows_S m n l :
  windows m (S n) l = take m l :: windows m n (drop m l).
Proof.
  unfold windows. cbn [seq map]. rewrite Nat.mul_0_l, drop_0. f_equal.
  rewrite <- seq_shift, map_map. apply map_ext. intros k.
  rewrite drop_drop. reflexivity.
Qed.

Lemma concat_windows m n l :
  (length l <= n * m)%nat -> concat (windows m n l) = l.
Proof.
  revert l. induction n as [|n IH]; intros l Hlen.
  - destruct l; [reflexivity | simpl in Hlen; lia].
  - rewrite windows_S. cbn [concat]. rewrite IH.
    + apply take_drop.
    + rewrite length_drop. lia.
Qed.

Lemma windows_lookup m n l i w :
  windows m n l !! i = Some w -> (i < n)%nat /\ w = take m (drop (i * m) l).
Proof.
  unfold windows. intros H. apply list_lookup_fmap_Some in H as (k & -> & Hk).
  apply lookup_seq in Hk as [-> ?]. split; [lia | reflexivity].
Qed.

Lemma slice_window l (i m : Z) :
  0 <= i <= Z.of_nat (length l) -> 0 < m ->
  slice l i (i + m) = take (Z.to_nat m) (drop (Z.to_nat i) l).
Proof.
  intros Hi Hm. unfold slice, clamp.
  rewrite (proj2 (Z.ltb_ge i 0)) by lia.
  rewrite (proj2 (Z.ltb_ge (i + m) 0)) by lia.
  rewrite (Z.min_r _ i) by lia.
  destruct (Z.min_spec (Z.of_nat (length l)) (i + m)) as [[? ->]|[? ->]].
  - rewrite !take_ge; [reflexivity | | ]; rewrite length_drop; lia.
  - f_equal. lia.
Qed.

End Windows.

Lemma window_count_cover len m :
  0 <= len -> 0 < m -> len <= Z.of_nat (window_count len m) * m.
Proof.
  intros Hlen Hm. unfold window_count. destruct (Z.ltb_spec 0 len); [|lia].
  pose proof (Z.div_pos (len - 1) m ltac:(lia) Hm).
  rewrite Z2Nat.id by lia.
  pose proof (Z.mul_succ_div_gt (len - 1) m Hm). lia.
Qed.

Lemma window_count_start len m k :
  0 <= len -> 0 < m -> (S k < window_count len m)%nat ->
  Z.of_nat (S k) * m < len.
Proof.
  intros Hlen Hm. unfold window_count. destruct (Z.ltb_spec 0 len); [|lia].
  pose proof (Z.div_pos (len - 1) m ltac:(lia) Hm).
  intros Hk.
  assert (Z.of_nat (S k) <= (len - 1) / m) by lia.
  pose proof (Z.mul_div_le (len - 1) m Hm). nia.
Qed.

Lemma window_count_start0 len m k :
  0 <= len -> 0 < m -> (k < window_count len m)%nat ->
  Z.of_nat k * m < len.
Proof.
  intros Hlen Hm. unfold window_count. destruct (Z.ltb_spec 0 len); [|lia].
  pose proof (Z.div_pos (len - 1) m ltac:(lia) Hm).
  intros Hk.
  assert (Z.of_nat k <= (len - 1) / m) by lia.
  pose proof (Z.mul_div_le (len - 1) m Hm). nia.
Qed.

Lemma split_by_tokens_windows self txt max_tokens :
  0 < max_tokens ->
  let tokens := encode (encoder self) txt in
  split_by_tokens self txt max_tokens =
  ret (map (fun w => {| text := decode (encoder self) w |})
         (windows (Z.to_nat max_tokens)
            (window_count (Z.of_nat (length tokens)) max_tokens) tokens)).
Proof.
  intros Hm tokens. unfold split_by_tokens, py_range. fold tokens.
  rewrite (proj2 (Z.eqb_neq max_tokens 0)) by lia.
  rewrite (proj2 (Z.ltb_lt 0 max_tokens)) by lia.
  cbn [bind ret]. f_equal. unfold windows. rewrite map_map.
  replace (Z.to_nat
     (if 0 <? Z.of_nat (length tokens)
      then (Z.of_nat (length tokens) - 0 - 1) / max_tokens + 1 else 0))
    with (window_count (Z.of_nat (length tokens)) max_tokens)
    by (unfold window_count; rewrite Z.sub_0_r; reflexivity).
  rewrite map_map. apply map_ext_in. intros k Hk.
  apply in_seq in Hk. f_equal. f_equal.
  pose proof (window_count_start0 (Z.of_nat (length tokens)) max_tokens k
                ltac:(lia) Hm ltac:(lia)).
  rewrite slice_window by lia.
  do 2 f_equal. nia.
Qed.

(** C8: for a positive [max_tokens], [split_by_tokens] returns the decodings
    of consecutive windows that partition [encode(text)]: the windows
    concatenate to the encoding, none is empty or longer than [max_tokens],
    and every window but the last has exactly [max_tokens] ids.  The function
    is total, so it returns on input of any length. *)
Theorem split_by_tokens_partition self txt max_tokens :
  0 < max_tokens ->
  exists ws : list (list Z),
    split_by_tokens self txt max_tokens =
      ret (map (fun w => {| text := decode (encoder self) w |}) ws)
    /\ concat ws = encode (encoder self) txt
    /\ Forall (fun w => 0 < Z.of_nat (length w) <= max_tokens) ws
    /\ (forall i w, ws !! i = Some w -> (S i < length ws)%nat ->
          Z.of_nat (length w) = max_tokens).
Proof.
  intros Hm.
  set (tokens := encode (encoder self) txt).
  set (n := window_count (Z.of_nat (length tokens)) max_tokens).
  exists (windows (Z.to_nat max_tokens) n tokens).
  split; [apply split_by_tokens_windows; exact Hm|].
  split.
  { apply concat_windows.
    pose proof (window_count_cover (Z.of_nat (length tokens)) max_tokens
                  ltac:(lia) Hm).
    fold n in H. nia. }
  split.
  - apply Forall_lookup_2. intros i w Hw.
    apply windows_lookup in Hw as [Hi ->].
    pose proof (window_count_start0 (Z.of_nat (length tokens)) max_tokens i
                  ltac:(lia) Hm Hi).
    rewrite length_take, length_drop. nia.
  - intros i w Hw Hlast.
    apply windows_lookup in Hw as [Hi ->].
    unfold windows in Hlast. rewrite length_map, length_seq in Hlast.
    pose proof (window_count_start (Z.of_nat (length tokens)) max_tokens i
                  ltac:(lia) Hm Hlast).
    rewrite length_take, length_drop. nia.
Qed.

Lemma split_by_tokens_partition_witness :
  0 < 3 /\
  exists ws : list (list Z),
    split_by_tokens (strategy 3 0) (py "abcdefgh") 3 =
      ret (map (fun w => {| text := decode char_encoding w |}) ws)
    /\ concat ws = py "abcdefgh"
    /\ Forall (fun w => 0 < Z.of_nat (length w) <= 3) ws
    /\ (forall i w, ws !! i = Some w -> (S i < length ws)%nat ->
          Z.of_nat (length w) = 3).
Proof.
  split; [lia|].
  apply (split_by_tokens_partition (strategy 3 0) (py "abcdefgh") 3). lia.
Defined.

(** ** Chunk identifiers *)

Lemma uint_codes_inj d1 d2 : uint_codes d1 = uint_codes d2 -> d1 = d2.
Proof.
  revert d2. induction d1; intros d2; destruct d2; cbn [uint_codes];
    intros H; try discriminate H; try reflexivity;
    injection H as H; f_equal; apply IHd1; exact H.
Qed.

Lemma of_uint_zero_pad w d : N.of_uint (zero_pad w d) = N.of_uint d.
Proof.
  unfold zero_pad. induction (w - length (uint_codes d))%nat as [|k IH].
  - reflexivity.
  - cbn [Nat.iter]. exact IH.
Qed.


(** ** The assembler *)

Lemma bind_ret_inv {A B} (m : result A) (k : A -> result B) b :
  bind m k = ret b -> exists a, m = ret a /\ k a = ret b.
Proof. destruct m as [e|a]; cbn; [discriminate | eauto]. Qed.

Lemma getitem_ret block key v : getitem block key = ret v -> block !! key = Some v.
Proof. unfold getitem, ret, raise. destruct (block !! key); congruence. Qed.

Ltac bind_inv H :=
  let a := fresh "a" in
  let Ha := fresh "Ha" in
  apply bind_ret_inv in H as (a & Ha & H).

Section PipelineFacts.

Variable self : LegalChunkingStrategy.

Lemma emit_chunks_spec block tcs : forall n cs n',
  emit_chunks self block tcs n = ret (cs, n') ->
  n' = n + Z.of_nat (length tcs)
  /\ map content cs = map text tcs
  /\ forall i c, cs !! i = Some c -> built_from self block (n + Z.of_nat i) c.
Proof.
  induction tcs as [|tc tcs IH]; intros n cs n' H; cbn [emit_chunks] in H.
  - injection H as <- <-. split; [cbn; lia|]. split; [reflexivity|].
    intros i c Hc. rewrite lookup_nil in Hc. discriminate.
  - bind_inv H. apply getitem_ret in Ha.
    bind_inv H. apply getitem_ret in Ha0.
    bind_inv H. destruct a1 as [more k]. injection H as <- <-.
    apply IH in Ha1 as (-> & Hmap & Hall).
    split; [cbn [length]; lia|]. split; [cbn [map]; f_equal; exact Hmap|].
    intros [|i] c Hc.
    + injection Hc as <-. unfold built_from; cbn.
      rewrite Z.add_0_r. repeat split; assumption.
    + cbn in Hc. apply Hall in Hc.
      replace (n + Z.of_nat (S i)) with (n + 1 + Z.of_nat i) by lia. exact Hc.
Qed.

Lemma emit_chunks_length block tcs n cs n' :
  emit_chunks self block tcs n = ret (cs, n') -> length cs = length tcs.
Proof.
  intros H. apply emit_chunks_spec in H as (_ & Hmap & _).
  apply (f_equal length) in Hmap. rewrite !length_map in Hmap. exact Hmap.
Qed.

Lemma assemble_spec blocks : forall n cs,
  assemble self blocks n = ret cs ->
  forall i c, cs !! i = Some c ->
    exists block, block ∈ blocks /\ built_from self block (n + Z.of_nat i) c.
Proof.
  induction blocks as [|block blocks IH]; intros n cs H i c Hc;
    cbn [assemble] in H.
  - injection H as <-. rewrite lookup_nil in Hc. discriminate.
  - bind_inv H. destruct a as [| |txt]; try discriminate H.
    bind_inv H. bind_inv H. destruct a0 as [chunks k].
    bind_inv H. injection H as <-.
    pose proof (emit_chunks_length _ _ _ _ _ Ha1) as Hlen.
    apply emit_chunks_spec in Ha1 as (-> & _ & Hall).
    apply lookup_app_Some in Hc as [Hc|[Hge Hc]].
    + exists block. split; [apply list_elem_of_here|]. apply Hall, Hc.
    + destruct (IH _ _ Ha2 _ _ Hc) as (b & Hb & Hbuilt).
      exists b. split; [apply list_elem_of_further, Hb|].
      replace (n + Z.of_nat i)
        with (n + Z.of_nat (length a) + Z.of_nat (i - length chunks)) by lia.
      exact Hbuilt.
Qed.

(** ** The overlap pass *)

Lemma apply_overlap_lookup chunks i :
  apply_overlap self chunks !! i =
  (if overlap self =? 0 then id else overlap_chunk self chunks i) <$> chunks !! i.
Proof.
  unfold apply_overlap. destruct chunks as [|c chunks].
  - rewrite lookup_nil. reflexivity.
  - destruct (overlap self =? 0).
    + destruct ((c :: chunks) !! i); reflexivity.
    + apply list_lookup_imap.
Qed.

Lemma apply_overlap_lookup_Some chunks i c' :
  apply_overlap self chunks !! i = Some c' ->
  exists c, chunks !! i = Some c
    /\ chunk_id c' = chunk_id c
    /\ doc_id (metadata c') = doc_id (metadata c)
    /\ doc_name (metadata c') = doc_name (metadata c)
    /\ page (metadata c') = page (metadata c)
    /\ (chunk_tokens (metadata c) = count_tokens self (content c) ->
        chunk_tokens (metadata c') = count_tokens self (content c'))
    /\ (overlap self = 0 -> c' = c).
Proof.
  rewrite apply_overlap_lookup. destruct (chunks !! i) as [c|]; [|discriminate].
  cbn. intros [= <-]. exists c. split; [reflexivity|].
  destruct (Z.eqb_spec (overlap self) 0) as [E|E]; cbn.
  - repeat split; auto.
  - repeat split; auto. intros F. contradiction.
Qed.

End PipelineFacts.

Lemma process_ret_inv self blocks out :
  process_from_unified_json self blocks = ret out ->
  exists all_chunks,
    assemble self blocks 1 = ret all_chunks /\ out = apply_overlap self all_chunks.
Proof.
  unfold process_from_unified_json. intros H. bind_inv H.
  injection H as <-. eauto.
Qed.

Lemma process_lookup self blocks out i c' :
  process_from_unified_json self blocks = ret out ->
  out !! i = Some c' ->
  exists block c,
    block ∈ blocks /\ built_from self block (1 + Z.of_nat i) c
    /\ chunk_id c' = chunk_id c
    /\ doc_id (metadata c') = doc_id (metadata c)
    /\ doc_name (metadata c') = doc_name (metadata c)
    /\ page (metadata c') = page (metadata c)
    /\ chunk_tokens (metadata c') = count_tokens self (content c')
    /\ (overlap self = 0 -> c' = c).
Proof.
  intros H Hc'. apply process_ret_inv in H as (all_chunks & Hasm & ->).
  apply apply_overlap_lookup_Some in Hc' as (c & Hc & Hid & Hd & Hn & Hp & Htok & Hz).
  destruct (assemble_spec self _ _ _ Hasm _ _ Hc) as (block & Hin & Hb).
  exists block, c. split; [exact Hin|]. split; [exact Hb|].
  repeat split; try assumption.
  apply Htok. apply Hb.
Qed.



(** C5: in the final output every chunk's [chunk_tokens] is the number of
    token ids the tokenizer gives for the chunk's final [content], preview
    included. *)
Theorem chunk_tokens_exact self blocks out :
  process_from_unified_json self blocks = ret out ->
  Forall (fun c => chunk_tokens (metadata c) =
                   Z.of_nat (length (encode (encoder self) (content c)))) out.
Proof.
  intros H. apply Forall_lookup_2. intros i c' Hc'.
  destruct (process_lookup _ _ _ _ _ H Hc') as (b & c & _ & _ & _ & _ & _ & _ & Htok & _).
  exact Htok.
Qed.

Lemma chunk_tokens_exact_witness :
  let out :=
    [ {| chunk_id := py "chunk_00001";
         content := py "제1조 aaa" ++ preview_header ++ py "제2...";
         metadata := {| doc_id := JStr (py "doc_001"); doc_name := JStr (py "law");
                        page := JInt 3; chunk_tokens := 27; has_overlap := Some true |} |};
      {| chunk_id := py "chunk_00002";
         content := py "제2조 bbbbbb";
         metadata := {| doc_id := JStr (py "doc_001"); doc_name := JStr (py "law");
                        page := JInt 3; chunk_tokens := 10; has_overlap := Some false |} |} ] in
  process_from_unified_json (strategy 10 2)
    [block_of "doc_001" "law" 3 "제1조 aaa 제2조 bbbbbb"] = ret out
  /\ Forall (fun c => chunk_tokens (metadata c) =
                      Z.of_nat (length (encode char_encoding (content c)))) out.
Proof.
  intros out.
  assert (H : process_from_unified_json (strategy 10 2)
    [block_of "doc_001" "law" 3 "제1조 aaa 제2조 bbbbbb"] = ret out)
    by (vm_compute; reflexivity).
  split; [exact H|].
  exact (chunk_tokens_exact _ _ _ H).
Defined.

(** C10, as the code has it: with [overlap = 0], or on an empty list,
    [apply_overlap] returns its argument as it is.  So a chunk of the result
    has [has_overlap = true] only where the same chunk of the argument has it:
    none when the argument has none, as in every list the assembler builds,
    which writes no [has_overlap] key. *)
Theorem apply_overlap_identity self chunks :
  overlap self = 0 \/ chunks = [] ->
  apply_overlap self chunks = chunks
  /\ (forall i c, apply_overlap self chunks !! i = Some c ->
        has_overlap (metadata c) = Some true ->
        exists c0, chunks !! i = Some c0 /\ has_overlap (metadata c0) = Some true)
  /\ (Forall (fun c => has_overlap (metadata c) <> Some true) chunks ->
        Forall (fun c => has_overlap (metadata c) <> Some true)
               (apply_overlap self chunks))
  /\ (forall blocks, assemble self blocks 1 = ret chunks ->
        Forall (fun c => has_overlap (metadata c) <> Some true)
               (apply_overlap self chunks)).
Proof.
  intros Hid.
  assert (E : apply_overlap self chunks = chunks).
  { unfold apply_overlap. destruct chunks as [|c chunks]; [reflexivity|].
    destruct Hid as [-> | ?]; [reflexivity | discriminate]. }
  rewrite E. split; [reflexivity|]. split; [|split].
  - intros i c Hc Hflag. exists c. split; assumption.
  - intros H. exact H.
  - intros blocks Hasm. apply Forall_lookup_2. intros i c Hc.
    destruct (assemble_spec self _ _ _ Hasm _ _ Hc) as (b & _ & Hb).
    destruct Hb as (_ & _ & _ & _ & _ & ->). discriminate.
Qed.

Lemma apply_overlap_identity_witness :
  let self := strategy 10 0 in
  let chunks :=
    [ {| chunk_id := py "chunk_00001"; content := py "제1조 aaa";
         metadata := {| doc_id := JStr (py "d"); doc_name := JStr (py "n");
                        page := JInt 3; chunk_tokens := 7; has_overlap := None |} |};
      {| chunk_id := py "chunk_00002"; content := py "제2조 bbbbbb";
         metadata := {| doc_id := JStr (py "d"); doc_name := JStr (py "n");
                        page := JInt 3; chunk_tokens := 10; has_overlap := None |} |} ] in
  (overlap self = 0 \/ chunks = [])
  /\ assemble self [block_of "d" "n" 3 "제1조 aaa 제2조 bbbbbb"] 1 = ret chunks
  /\ Forall (fun c => has_overlap (metadata c) <> Some true) chunks
  /\ apply_overlap self chunks = chunks
  /\ Forall (fun c => has_overlap (metadata c) <> Some true)
            (apply_overlap self chunks).
Proof.
  intros self chunks.
  assert (H0 : overlap self = 0 \/ chunks = []) by (left; reflexivity).
  assert (Hasm : assemble self [block_of "d" "n" 3 "제1조 aaa 제2조 bbbbbb"] 1
                 = ret chunks) by (vm_compute; reflexivity).
  assert (Hno : Forall (fun c => has_overlap (metadata c) <> Some true) chunks)
    by (repeat constructor; discriminate).
  destruct (apply_overlap_identity self chunks H0) as (E & _ & Hkeep & Hbuilt).
  split; [exact H0|]. split; [exact Hasm|]. split; [exact Hno|].
  split; [exact E|]. exact (Hkeep Hno).
Defined.

(** With [overlap = 0] a chunk that comes in with [has_overlap = true] goes
    out with it. *)
Lemma zero_overlap_keeps_flag :
  let flagged :=
    {| chunk_id := py "chunk_00001"; content := py "abc";
       metadata := {| doc_id := JStr (py "d"); doc_name := JStr (py "n");
                      page := JInt 1; chunk_tokens := 3; has_overlap := Some true |} |} in
  overlap (strategy 10 0) = 0
  /\ apply_overlap (strategy 10 0) [flagged] = [flagged]
  /\ Exists (fun c => has_overlap (metadata c) = Some true)
            (apply_overlap (strategy 10 0) [flagged]).
Proof.
  cbn zeta. split; [reflexivity|]. split; [reflexivity|].
  apply Exists_cons_hd. reflexivity.
Qed.

(** ** Blank blocks *)

Lemma isspace_not_JE c : isspace c = true -> (c =? JE) = false.
Proof.
  intros H. destruct (Z.eqb_spec c JE) as [->|]; [|reflexivity].
  vm_compute in H. discriminate H.
Qed.

Lemma re_search_article_blank ws :
  Forall (fun c => isspace c = true) ws -> re_search match_article ws = None.
Proof.
  induction 1 as [|c ws Hc _ IH]; [reflexivity|].
  cbn [re_search]. unfold match_article at 1.
  rewrite (isspace_not_JE c Hc), IH. reflexivity.
Qed.

Lemma re_split_article_blank ws :
  Forall (fun c => isspace c = true) ws -> re_split match_article ws = [ws].
Proof.
  intros H. unfold re_split. destruct (length ws); [reflexivity|].
  cbn [re_split_fuel]. rewrite re_search_article_blank by exact H. reflexivity.
Qed.

Lemma lstrip_blank ws : Forall (fun c => isspace c = true) ws -> lstrip ws = [].
Proof.
  induction 1 as [|c ws Hc _ IH]; [reflexivity|]. cbn [lstrip]. rewrite Hc. exact IH.
Qed.

Lemma strip_blank ws : Forall (fun c => isspace c = true) ws -> strip ws = [].
Proof. intros H. unfold strip. rewrite lstrip_blank by exact H. reflexivity. Qed.

Lemma split_by_article_blank self ws max_tokens :
  Forall (fun c => isspace c = true) ws ->
  split_by_article self ws max_tokens = ret [].
Proof.
  intros H. unfold split_by_article.
  rewrite re_split_article_blank by exact H.
  cbn [article_loop]. rewrite strip_blank by exact H.
  reflexivity.
Qed.

Lemma bind_ret_r {A} (m : result A) : bind m (fun a => ret a) = m.
Proof. destruct m; reflexivity. Qed.

Lemma assemble_blank_head self block ws rest n :
  block !! "text" = Some (JStr ws) ->
  Forall (fun c => isspace c = true) ws ->
  assemble self (block :: rest) n = assemble self rest n.
Proof.
  intros Htext Hws. cbn [assemble]. unfold getitem. rewrite Htext.
  cbn [bind ret]. unfold ret at 1. cbn [bind].
  rewrite split_by_article_blank by exact Hws.
  unfold ret at 1. cbn [bind emit_chunks]. unfold ret at 1. cbn [bind app].
  apply bind_ret_r.
Qed.

(** C9: a block whose text is empty or whitespace only is passed over: it
    yields no chunk and leaves the counter where it was, so a run over a
    block list that contains it gives what the run over the list without it
    gives, for the assembled chunks and for the final output. *)
Theorem blank_block_skipped self pre block post ws :
  block !! "text" = Some (JStr ws) ->
  Forall (fun c => isspace c = true) ws ->
  (forall n, assemble self (block :: post) n = assemble self post n)
  /\ (forall n, assemble self (pre ++ block :: post) n = assemble self (pre ++ post) n)
  /\ process_from_unified_json self (pre ++ block :: post) =
     process_from_unified_json self (pre ++ post).
Proof.
  intros Htext Hws.
  assert (Hhead : forall n, assemble self (block :: post) n = assemble self post n)
    by (intros n; eapply assemble_blank_head; eassumption).
  assert (Hall : forall n, assemble self (pre ++ block :: post) n
                           = assemble self (pre ++ post) n).
  { induction pre as [|b pre IH]; intros n; [apply Hhead|].
    cbn [app assemble].
    destruct (getitem b "text") as [e|[| |txt]]; try reflexivity.
    cbn [bind].
    destruct (split_by_article self txt (chunk_size self)) as [e|tcs];
      [reflexivity|].
    cbn [bind].
    destruct (emit_chunks self b tcs n) as [e|[cs k]]; [reflexivity|].
    cbn [bind]. rewrite IH. reflexivity. }
  split; [exact Hhead|]. split; [exact Hall|].
  unfold process_from_unified_json. rewrite Hall. reflexivity.
Qed.

Lemma blank_block_skipped_witness :
  let blank : gmap string jval := {[ "text" := JStr [32; 10; 12288; 9] ]} in
  let pre := [block_of "d1" "n1" 1 "aaaaaaaaaaaa"] in
  let post := [block_of "d2" "n2" 4 "제1조 b"] in
  blank !! "text" = Some (JStr [32; 10; 12288; 9])
  /\ Forall (fun c => isspace c = true) [32; 10; 12288; 9]
  /\ process_from_unified_json (strategy 10 3) (pre ++ blank :: post) =
     process_from_unified_json (strategy 10 3) (pre ++ post).
Proof.
  intros blank pre post.
  assert (H1 : blank !! "text" = Some (JStr [32; 10; 12288; 9])) by reflexivity.
  assert (H2 : Forall (fun c => isspace c = true) [32; 10; 12288; 9])
    by (repeat constructor).
  split; [exact H1|]. split; [exact H2|].
  exact (proj2 (proj2 (blank_block_skipped (strategy 10 3) pre blank post _ H1 H2))).
Defined.

(** ** Previews *)

Lemma apply_overlap_lookup_nz self chunks i c :
  overlap self <> 0 -> chunks !! i = Some c ->
  apply_overlap self chunks !! i = Some (overlap_chunk self chunks i c).
Proof.
  intros Hov Hc. rewrite apply_overlap_lookup, Hc.
  rewrite (proj2 (Z.eqb_neq _ _) Hov). reflexivity.
Qed.

(** The flag written by the pass only says whether the chunk is the last of
    the whole list. *)
Lemma has_overlap_by_position self chunks i c :
  overlap self <> 0 -> chunks !! i = Some c ->
  exists c', apply_overlap self chunks !! i = Some c'
    /\ has_overlap (metadata c') = Some (bool_decide (S i < length chunks)%nat).
Proof.
  intros Hov Hc. eexists. split; [apply apply_overlap_lookup_nz; eassumption|].
  cbn. f_equal. case_bool_decide; [apply Z.ltb_lt | apply Z.ltb_ge]; lia.
Qed.

Lemma slice_prefix {A} (l : list A) (k : Z) :
  0 < k -> slice l 0 k = take (Z.to_nat k) l.
Proof.
  intros Hk. change k with (0 + k) at 1.
  rewrite slice_window by lia. reflexivity.
Qed.

Lemma preview_cases self chunks i c :
  0 < overlap self ->
  preview self chunks i c =
  match chunks !! S i with
  | Some nxt =>
      if bool_decide (doc_id (metadata nxt) = doc_id (metadata c)
                      /\ overlap self < Z.of_nat (length (encode (encoder self) (content nxt))))
      then Some (preview_header
                 ++ decode (encoder self)
                      (take (Z.to_nat (overlap self)) (encode (encoder self) (content nxt)))
                 ++ py "...")
      else None
  | None => None
  end.
Proof.
  intros Hov. unfold preview.
  destruct (chunks !! S i) as [nxt|] eqn:Hn.
  - apply lookup_lt_Some in Hn.
    rewrite (proj2 (Z.ltb_lt _ _)) by lia.
    unfold py_eq. rewrite slice_prefix by exact Hov.
    destruct (Z.ltb_spec (overlap self)
                (Z.of_nat (length (encode (encoder self) (content nxt)))));
      repeat case_bool_decide; try reflexivity; tauto || lia.
  - destruct (_ <? _); reflexivity.
Qed.

(** C4, as the code has it: with a positive [overlap], chunk [i] gets the
    preview (the marker line, the decoding of the first [overlap] token ids of
    chunk [i+1]'s content, and an ellipsis) exactly when chunk [i+1] exists,
    has the same [doc_id], and its content encodes to MORE than [overlap]
    ids; when the successor has [overlap] ids or fewer, another [doc_id], or
    does not exist, the content is left as it is. *)
Theorem preview_appended self chunks i c :
  0 < overlap self ->
  chunks !! i = Some c ->
  exists c', apply_overlap self chunks !! i = Some c'
    /\ (forall nxt, chunks !! S i = Some nxt ->
          doc_id (metadata nxt) = doc_id (metadata c) ->
          overlap self < Z.of_nat (length (encode (encoder self) (content nxt))) ->
          content c' =
            content c ++ preview_header
            ++ decode (encoder self)
                 (take (Z.to_nat (overlap self)) (encode (encoder self) (content nxt)))
            ++ py "...")
    /\ (forall nxt, chunks !! S i = Some nxt ->
          doc_id (metadata nxt) <> doc_id (metadata c)
          \/ Z.of_nat (length (encode (encoder self) (content nxt))) <= overlap self ->
          content c' = content c)
    /\ (chunks !! S i = None -> content c' = content c).
Proof.
  intros Hov Hc. eexists. split; [apply apply_overlap_lookup_nz; [lia | exact Hc]|].
  cbn [overlap_chunk content]. rewrite preview_cases by exact Hov.
  split; [|split].
  - intros nxt -> Hdoc Hlen. rewrite bool_decide_eq_true_2 by (split; assumption).
    reflexivity.
  - intros nxt -> Hor. rewrite bool_decide_eq_false_2; [reflexivity|].
    intros [? ?]. destruct Hor; [contradiction | lia].
  - intros ->. reflexivity.
Qed.

Lemma preview_appended_witness :
  let self := strategy 10 2 in
  let chunks := [chunk_of "chunk_00001" "doc_001" "ab"; chunk_of "chunk_00002" "doc_001" "cde"] in
  0 < overlap self
  /\ chunks !! 0%nat = Some (chunk_of "chunk_00001" "doc_001" "ab")
  /\ exists c', apply_overlap self chunks !! 0%nat = Some c'
       /\ content c' = py "ab" ++ preview_header ++ py "cd" ++ py "...".
Proof.
  intros self chunks.
  assert (H0 : 0 < overlap self) by (cbn; lia).
  assert (H1 : chunks !! 0%nat = Some (chunk_of "chunk_00001" "doc_001" "ab"))
    by reflexivity.
  split; [exact H0|]. split; [exact H1|].
  destruct (preview_appended self chunks 0 _ H0 H1) as (c' & Hc' & Hyes & _).
  exists c'. split; [exact Hc'|].
  apply (Hyes (chunk_of "chunk_00002" "doc_001" "cde")).
  - reflexivity.
  - reflexivity.
  - vm_compute. reflexivity.
Defined.

(** The successor has exactly [overlap] token ids and the same [doc_id], and
    no preview is appended. *)
Lemma preview_needs_more_than_overlap :
  let self := strategy 10 2 in
  let c0 := chunk_of "chunk_00001" "doc_001" "ab" in
  let c1 := chunk_of "chunk_00002" "doc_001" "cd" in
  let chunks := [c0; c1] in
  chunks !! 1%nat = Some c1
  /\ doc_id (metadata c1) = doc_id (metadata c0)
  /\ overlap self <= Z.of_nat (length (encode (encoder self) (content c1)))
  /\ exists c', apply_overlap self chunks !! 0%nat = Some c'
       /\ content c' = content c0
       /\ content c' <>
            content c0 ++ preview_header
            ++ decode (encoder self)
                 (take (Z.to_nat (overlap self)) (encode (encoder self) (content c1)))
            ++ py "...".
Proof.
  cbn zeta. split; [reflexivity|]. split; [reflexivity|].
  split; [vm_compute; discriminate|].
  eexists. split; [vm_compute; reflexivity|]. split; [reflexivity|].
  vm_compute. discriminate.
Qed.

(** C2, the code at two one-chunk blocks of different documents: the first
    chunk is the last of [doc_001] and its content is the block text, without
    preview, yet its [has_overlap] is [true]. *)
Theorem has_overlap_despite_no_preview :
  process_from_unified_json (strategy 10 2)
    [block_of "doc_001" "law A" 1 "aaa"; block_of "doc_002" "law B" 1 "bbb"] =
  ret [ {| chunk_id := py "chunk_00001"; content := py "aaa";
           metadata := {| doc_id := JStr (py "doc_001"); doc_name := JStr (py "law A");
                          page := JInt 1; chunk_tokens := 3; has_overlap := Some true |} |};
        {| chunk_id := py "chunk_00002"; content := py "bbb";
           metadata := {| doc_id := JStr (py "doc_002"); doc_name := JStr (py "law B");
                          page := JInt 1; chunk_tokens := 3; has_overlap := Some false |} |} ].
Proof. vm_compute. reflexivity. Qed.

(** ** Token budget and headers *)

Lemma count_tokens_nonneg self txt : 0 <= count_tokens self txt.
Proof. unfold count_tokens. lia. Qed.

(** Whatever the tokenizer, a budget equal to the sum of the two separately
    counted pieces makes the loop join them into one chunk. *)
Lemma split_by_article_joins self :
  split_by_article self (py "aaaaa 제1조 b")
    (count_tokens self (py "aaaaa") + count_tokens self (py "제1조 b")) =
  ret [{| text := py "aaaaa 제1조 b" |}].
Proof.
  pose proof (count_tokens_nonneg self (py "aaaaa")) as Ha.
  pose proof (count_tokens_nonneg self (py "제1조 b")) as Hb.
  unfold split_by_article.
  replace (re_split match_article (py "aaaaa 제1조 b"))
    with [py "aaaaa "; py "제1조"; py " b"] by (vm_compute; reflexivity).
  cbn [article_loop].
  replace (strip (py "aaaaa ")) with (py "aaaaa") by (vm_compute; reflexivity).
  replace (strip (py "제1조")) with (py "제1조") by (vm_compute; reflexivity).
  replace (strip (py " b")) with (py "b") by (vm_compute; reflexivity).
  destruct (decide (py "aaaaa" = [])) as [E|_]; [vm_compute in E; discriminate E|].
  replace (is_article (py "aaaaa")) with false by (vm_compute; reflexivity).
  unfold on_prose.
  rewrite (proj2 (Z.ltb_ge _ _)) by lia.
  rewrite (proj2 (Z.leb_le _ _)) by lia.
  unfold ret at 1. cbn [bind].
  destruct (decide (py "제1조" = [])) as [E|_]; [vm_compute in E; discriminate E|].
  replace (is_article (py "제1조")) with true by (vm_compute; reflexivity).
  unfold on_article.
  replace (py "제1조" ++ [32] ++ py "b") with (py "제1조 b") by (vm_compute; reflexivity).
  rewrite (proj2 (Z.leb_le (count_tokens self (py "제1조 b")) _)) by lia.
  rewrite (proj2 (Z.leb_le _ _)) by lia.
  unfold ret at 1. cbn [bind]. unfold ret at 1. cbn [bind].
  vm_compute. reflexivity.
Qed.

(** C1, the code where a chunk exceeds the budget.  For any tokenizer the
    buffer is filled by adding up the counts of the pieces, so with a budget
    of [count("aaaaa") + count("제1조 b")] the joined text is one chunk,
    whatever its own count.  With [max_tokens = 10] and one token per
    character that chunk has 11 tokens (5 + 5 counted); and a clause of 10
    tokens is put behind its header without a test, in a chunk of 14 tokens. *)
Theorem split_by_article_over_budget :
  (forall self,
     split_by_article self (py "aaaaa 제1조 b")
       (count_tokens self (py "aaaaa") + count_tokens self (py "제1조 b")) =
     ret [{| text := py "aaaaa 제1조 b" |}])
  /\ split_by_article (strategy 10 0) (py "aaaaa 제1조 b") 10 =
       ret [{| text := py "aaaaa 제1조 b" |}]
  /\ count_tokens (strategy 10 0) (py "aaaaa 제1조 b") = 11
  /\ split_by_article (strategy 10 0) (py "제1조 aaaaaaaaaa") 10 =
       ret [{| text := py "제1조 aaaaaaaaaa" |}]
  /\ count_tokens (strategy 10 0) (py "제1조 aaaaaaaaaa") = 14.
Proof.
  split; [exact split_by_article_joins|].
  vm_compute. repeat split.
Qed.

(** C3, the code at a clause of 12 tokens with [max_tokens = 5] and one token
    per character: of the four forced windows only the first begins with the
    header.  [split_by_article] reaches this call on the article's text. *)
Theorem forced_windows_lose_header :
  let windows :=
    [ {| text := py "제1조 a" |}; {| text := py "aaaaa" |};
      {| text := py "aaaaa" |}; {| text := py "a" |} ] in
  _split_by_paragraph (strategy 5 0) (py "제1조") (py "aaaaaaaaaaaa") 5 = ret windows
  /\ split_by_article (strategy 5 0) (py "제1조 aaaaaaaaaaaa") 5 = ret windows.
Proof. vm_compute. split; reflexivity. Qed.

(** ** Missing fields *)

Lemma emit_chunks_ok_fields self block tcs n r :
  emit_chunks self block tcs n = ret r -> tcs <> [] ->
  is_Some (block !! "doc_id") /\ is_Some (block !! "doc_name").
Proof.
  destruct tcs as [|tc tcs]; [congruence|]. intros H _.
  cbn [emit_chunks] in H.
  bind_inv H. apply getitem_ret in Ha.
  bind_inv H. apply getitem_ret in Ha0.
  split; eexists; eassumption.
Qed.

Lemma assemble_ok_blocks self blocks : forall n cs,
  assemble self blocks n = ret cs ->
  forall block, block ∈ blocks ->
    exists txt tcs,
      block !! "text" = Some (JStr txt)
      /\ split_by_article self txt (chunk_size self) = ret tcs
      /\ (tcs <> [] -> is_Some (block !! "doc_id") /\ is_Some (block !! "doc_name")).
Proof.
  induction blocks as [|b blocks IH]; intros n cs H block Hin;
    [apply elem_of_nil in Hin; contradiction|].
  cbn [assemble] in H.
  bind_inv H. apply getitem_ret in Ha.
  destruct a as [| |txt]; try discriminate H.
  bind_inv H. bind_inv H. destruct a0 as [chunks k]. bind_inv H.
  apply elem_of_cons in Hin as [->|Hin].
  - exists txt, a. split; [exact Ha|]. split; [exact Ha0|].
    intros Hne. eapply emit_chunks_ok_fields; eassumption.
  - eapply IH; eassumption.
Qed.

Lemma emit_chunks_sources self block tcs : forall n cs n',
  emit_chunks self block tcs n = ret (cs, n') ->
  Forall2 (fun tc c =>
             content c = text tc
             /\ block !! "doc_id" = Some (doc_id (metadata c))
             /\ block !! "doc_name" = Some (doc_name (metadata c))
             /\ page (metadata c) = default (JInt 0) (block !! "page"))
          tcs cs.
Proof.
  induction tcs as [|tc tcs IH]; intros n cs n' H; cbn [emit_chunks] in H.
  - injection H as <- <-. constructor.
  - bind_inv H. apply getitem_ret in Ha.
    bind_inv H. apply getitem_ret in Ha0.
    bind_inv H. destruct a1 as [more k]. injection H as <- <-.
    constructor; [|eapply IH; eassumption].
    cbn. repeat split; assumption.
Qed.

Lemma assemble_sources self blocks : forall n cs,
  assemble self blocks n = ret cs ->
  Forall2 (fun p c =>
             content c = text p.2
             /\ p.1 !! "doc_id" = Some (doc_id (metadata c))
             /\ p.1 !! "doc_name" = Some (doc_name (metadata c))
             /\ page (metadata c) = default (JInt 0) (p.1 !! "page"))
          (sources self blocks) cs.
Proof.
  induction blocks as [|b blocks IH]; intros n cs H; cbn [assemble] in H.
  - injection H as <-. constructor.
  - bind_inv H. apply getitem_ret in Ha.
    destruct a as [| |txt]; try discriminate H.
    bind_inv H. bind_inv H. destruct a0 as [chunks k].
    bind_inv H. injection H as <-.
    unfold sources. cbn [flat_map]. apply Forall2_app.
    + unfold block_texts. rewrite Ha. unfold ret in Ha0. rewrite Ha0.
      apply Forall2_fmap_l. eapply Forall2_impl;
        [eapply emit_chunks_sources; eassumption|].
      intros tc c Hc. exact Hc.
    + eapply IH; eassumption.
Qed.

Lemma process_sources self blocks out :
  process_from_unified_json self blocks = ret out ->
  Forall2 (fun p c =>
             (exists extra, content c = text p.2 ++ extra)
             /\ p.1 !! "doc_id" = Some (doc_id (metadata c))
             /\ p.1 !! "doc_name" = Some (doc_name (metadata c))
             /\ page (metadata c) = default (JInt 0) (p.1 !! "page"))
          (sources self blocks) out.
Proof.
  intros H. apply process_ret_inv in H as (cs & Hasm & ->).
  apply assemble_sources in Hasm.
  apply Forall2_same_length_lookup. split.
  - rewrite (Forall2_length _ _ _ Hasm).
    unfold apply_overlap. destruct cs as [|c0 cs]; [reflexivity|].
    destruct (overlap self =? 0); [reflexivity | symmetry; apply length_imap].
  - intros i p c' Hp Hc'. rewrite apply_overlap_lookup in Hc'.
    destruct (cs !! i) as [c|] eqn:Hc; [|discriminate Hc'].
    cbn in Hc'. injection Hc' as <-.
    destruct (Forall2_lookup_lr _ _ _ _ _ _ Hasm Hp Hc) as (Hcont & Hd & Hn & Hpg).
    destruct (overlap self =? 0); cbn [id].
    + split; [exists []; rewrite app_nil_r; exact Hcont|]. repeat split; assumption.
    + cbn [overlap_chunk content metadata doc_id doc_name page].
      split; [|repeat split; assumption].
      destruct (preview self cs i c) as [extra|].
      * exists extra. rewrite Hcont. reflexivity.
      * exists []. rewrite app_nil_r. exact Hcont.
Qed.

(** A block whose text gives no chunk leaves no trace in the run: its
    [doc_id], [doc_name] and [page] are never read. *)
Lemma assemble_without_chunks self pre block post txt :
  block !! "text" = Some (JStr txt) ->
  split_by_article self txt (chunk_size self) = ret [] ->
  forall n, assemble self (pre ++ block :: post) n = assemble self (pre ++ post) n.
Proof.
  intros Htext Hsplit.
  induction pre as [|b pre IH]; intros n; cbn [app assemble].
  - unfold getitem. rewrite Htext. unfold ret in *. cbn [bind].
    rewrite Hsplit. cbn [bind emit_chunks]. unfold ret. cbn [bind app].
    destruct (assemble self post n); reflexivity.
  - destruct (getitem b "text") as [e|v]; cbn [bind]; [reflexivity|].
    destruct v as [| |t]; cbn [bind]; try reflexivity.
    destruct (split_by_article self t (chunk_size self)) as [e|tcs];
      cbn [bind]; [reflexivity|].
    destruct (emit_chunks self b tcs n) as [e|[cs k]]; cbn [bind]; [reflexivity|].
    rewrite IH. reflexivity.
Qed.

(** C6, as the code has it.  A run over a block list fails (no chunk list is
    returned) if some block has no [text], or has no [doc_id] or [doc_name]
    while its text gives at least one chunk.  A block whose text gives no
    chunk is not checked for [doc_id] or [doc_name]: the run is the run over
    the list without that block, whatever else the block holds or lacks.  In a
    run that returns, the chunks stand one to one, in order, against the texts
    of the blocks, and every chunk carries the [doc_id] and [doc_name] found in
    its own block, the block whose text it begins with; its [page] is that
    block's [page], or [0] when the block has none. *)
Theorem missing_fields self blocks :
  (forall block, block ∈ blocks -> block !! "text" = None ->
     exists e, process_from_unified_json self blocks = raise e)
  /\ (forall block txt tcs, block ∈ blocks ->
        block !! "text" = Some (JStr txt) ->
        split_by_article self txt (chunk_size self) = ret tcs -> tcs <> [] ->
        block !! "doc_id" = None \/ block !! "doc_name" = None ->
        exists e, process_from_unified_json self blocks = raise e)
  /\ (forall pre block post txt, blocks = pre ++ block :: post ->
        block !! "text" = Some (JStr txt) ->
        split_by_article self txt (chunk_size self) = ret [] ->
        process_from_unified_json self blocks =
        process_from_unified_json self (pre ++ post))
  /\ (forall out, process_from_unified_json self blocks = ret out ->
        Forall2 (fun p c =>
                   (exists extra, content c = text p.2 ++ extra)
                   /\ p.1 !! "doc_id" = Some (doc_id (metadata c))
                   /\ p.1 !! "doc_name" = Some (doc_name (metadata c))
                   /\ page (metadata c) = default (JInt 0) (p.1 !! "page"))
                (sources self blocks) out).
Proof.
  split; [|split; [|split]].
  - intros block Hin Hnone.
    destruct (process_from_unified_json self blocks) as [e|out] eqn:H;
      [exists e; reflexivity|].
    apply process_ret_inv in H as (cs & Hasm & _).
    destruct (assemble_ok_blocks _ _ _ _ Hasm _ Hin) as (txt & tcs & Ht & _).
    congruence.
  - intros block txt tcs Hin Ht Hsplit Hne Hmiss.
    destruct (process_from_unified_json self blocks) as [e|out] eqn:H;
      [exists e; reflexivity|].
    apply process_ret_inv in H as (cs & Hasm & _).
    destruct (assemble_ok_blocks _ _ _ _ Hasm _ Hin) as (txt' & tcs' & Ht' & Hs' & Hf).
    assert (txt' = txt) as -> by congruence.
    assert (tcs' = tcs) as -> by (unfold ret in *; congruence).
    destruct (Hf Hne) as [[? Hd] [? Hn]].
    destruct Hmiss; congruence.
  - intros pre block post txt -> Ht Hsplit.
    unfold process_from_unified_json.
    rewrite (assemble_without_chunks self pre block post txt Ht Hsplit).
    reflexivity.
  - intros out H. exact (process_sources self blocks out H).
Qed.

Lemma missing_fields_witness :
  let self := strategy 10 0 in
  let no_text : gmap string jval :=
    {[ "doc_id" := JStr (py "d"); "doc_name" := JStr (py "n"); "page" := JInt 2 ]} in
  let no_doc_id : gmap string jval :=
    {[ "doc_name" := JStr (py "n"); "page" := JInt 2; "text" := JStr (py "abc") ]} in
  let no_page : gmap string jval :=
    {[ "doc_id" := JStr (py "d"); "doc_name" := JStr (py "n"); "text" := JStr (py "abc") ]} in
  let only_text : gmap string jval := {[ "text" := JStr (py "   ") ]} in
  let other : gmap string jval :=
    {[ "doc_id" := JStr (py "e"); "doc_name" := JStr (py "m"); "page" := JInt 7;
       "text" := JStr (py "xyz") ]} in
  let c :=
    {| chunk_id := py "chunk_00001"; content := py "abc";
       metadata := {| doc_id := JStr (py "d"); doc_name := JStr (py "n");
                      page := JInt 0; chunk_tokens := 3; has_overlap := None |} |} in
  let c' :=
    {| chunk_id := py "chunk_00002"; content := py "xyz";
       metadata := {| doc_id := JStr (py "e"); doc_name := JStr (py "m");
                      page := JInt 7; chunk_tokens := 3; has_overlap := None |} |} in
  (exists e, process_from_unified_json self [no_page; no_text] = raise e)
  /\ (exists e, process_from_unified_json self [no_page; no_doc_id] = raise e)
  /\ process_from_unified_json self [no_page; only_text; other] =
     process_from_unified_json self [no_page; other]
  /\ process_from_unified_json self [no_page; other] = ret [c; c']
  /\ sources self [no_page; other] =
       [(no_page, {| text := py "abc" |}); (other, {| text := py "xyz" |})]
  /\ Forall2 (fun p c =>
                (exists extra, content c = text p.2 ++ extra)
                /\ p.1 !! "doc_id" = Some (doc_id (metadata c))
                /\ p.1 !! "doc_name" = Some (doc_name (metadata c))
                /\ page (metadata c) = default (JInt 0) (p.1 !! "page"))
             (sources self [no_page; other]) [c; c'].
Proof.
  intros self no_text no_doc_id no_page only_text other c c'.
  assert (Hrun : process_from_unified_json self [no_page; other] = ret [c; c'])
    by (vm_compute; reflexivity).
  split; [|split; [|split; [|split; [|split]]]].
  - apply (proj1 (missing_fields self [no_page; no_text]) no_text).
    + apply list_elem_of_further, list_elem_of_here.
    + reflexivity.
  - apply (proj1 (proj2 (missing_fields self [no_page; no_doc_id]))
             no_doc_id (py "abc") [{| text := py "abc" |}]).
    + apply list_elem_of_further, list_elem_of_here.
    + reflexivity.
    + vm_compute. reflexivity.
    + discriminate.
    + left. reflexivity.
  - apply (proj1 (proj2 (proj2 (missing_fields self [no_page; only_text; other])))
             [no_page] only_text [other] (py "   ")).
    + reflexivity.
    + reflexivity.
    + vm_compute. reflexivity.
  - exact Hrun.
  - vm_compute. reflexivity.
  - exact (proj2 (proj2 (proj2 (missing_fields self [no_page; other]))) [c; c'] Hrun).
Defined.

(** A block without [page] is chunked and the chunk gets [page = 0]; a block
    without [doc_id] and [doc_name] whose text is blank raises nothing. *)
Lemma page_default_and_lazy_lookup :
  let self := strategy 10 0 in
  let no_page : gmap string jval :=
    {[ "doc_id" := JStr (py "d"); "doc_name" := JStr (py "n"); "text" := JStr (py "abc") ]} in
  let only_text : gmap string jval := {[ "text" := JStr (py "   ") ]} in
  no_page !! "page" = None
  /\ process_from_unified_json self [no_page] =
       ret [ {| chunk_id := py "chunk_00001"; content := py "abc";
                metadata := {| doc_id := JStr (py "d"); doc_name := JStr (py "n");
                               page := JInt 0; chunk_tokens := 3;
                               has_overlap := None |} |} ]
  /\ only_text !! "doc_id" = None
  /\ only_text !! "doc_name" = None
  /\ process_from_unified_json self [only_text] = ret [].
Proof. vm_compute. repeat split. Qed.

(** * Further properties of the code *)

(** ** [split_by_tokens] at the edges *)



(** X2: for a positive [max_tokens] the number of windows is the number of
    token ids divided by [max_tokens], rounded up; a text without tokens
    gives no window. *)
Theorem split_by_tokens_count self txt max_tokens :
  0 < max_tokens ->
  exists cs,
    split_by_tokens self txt max_tokens = ret cs
    /\ Z.of_nat (length cs) =
       (Z.of_nat (length (encode (encoder self) txt)) + max_tokens - 1) / max_tokens.
Proof.
  intros Hm. eexists. split; [apply split_by_tokens_windows; exact Hm|].
  unfold windows. rewrite !length_map, length_seq. unfold window_count.
  set (len := Z.of_nat (length (encode (encoder self) txt))).
  assert (0 <= len) by (unfold len; lia).
  destruct (Z.ltb_spec 0 len).
  - pose proof (Z.div_pos (len - 1) max_tokens ltac:(lia) Hm).
    rewrite Z2Nat.id by lia.
    replace (len + max_tokens - 1) with (len - 1 + 1 * max_tokens) by lia.
    rewrite Z.div_add by lia. reflexivity.
  - replace len with 0 by lia. cbn [Z.to_nat Z.of_nat].
    symmetry. apply Z.div_small. lia.
Qed.

Lemma split_by_tokens_count_witness :
  0 < 3 /\
  exists cs, split_by_tokens (strategy 3 0) (py "abcdefgh") 3 = ret cs
             /\ Z.of_nat (length cs) = (Z.of_nat (length (py "abcdefgh")) + 3 - 1) / 3.
Proof.
  split; [lia|].
  apply (split_by_tokens_count (strategy 3 0) (py "abcdefgh") 3). lia.
Defined.

Lemma decode_concat (dec : list Z -> pystr) :
  (forall a b, dec (a ++ b) = dec a ++ dec b) ->
  forall ws, dec (concat ws) = concat (map dec ws).
Proof.
  intros Hhom.
  assert (Hnil : dec [] = []).
  { pose proof (Hhom [] []) as H. cbn [app] in H.
    apply (f_equal length) in H. rewrite length_app in H.
    destruct (dec []); [reflexivity | cbn in H; lia]. }
  induction ws as [|w ws IH]; cbn [concat map]; [exact Hnil|].
  rewrite Hhom, IH. reflexivity.
Qed.

(** X3: the forced split loses no text.  When decoding distributes over
    concatenation of token lists and [decode(encode(text)) = text], the texts
    of the windows returned for a positive [max_tokens], joined in order, are
    [text]. *)
Theorem split_by_tokens_roundtrip self txt max_tokens :
  0 < max_tokens ->
  (forall a b, decode (encoder self) (a ++ b) =
               decode (encoder self) a ++ decode (encoder self) b) ->
  decode (encoder self) (encode (encoder self) txt) = txt ->
  exists cs,
    split_by_tokens self txt max_tokens = ret cs
    /\ concat (map text cs) = txt.
Proof.
  intros Hm Hhom Hrt. eexists. split; [apply split_by_tokens_windows; exact Hm|].
  rewrite map_map. cbn [text].
  rewrite <- (decode_concat _ Hhom), concat_windows; [exact Hrt|].
  pose proof (window_count_cover (Z.of_nat (length (encode (encoder self) txt)))
                max_tokens ltac:(lia) Hm). nia.
Qed.

Lemma split_by_tokens_roundtrip_witness :
  0 < 3 /\
  exists cs, split_by_tokens (strategy 3 0) (py "abcdefgh") 3 = ret cs
             /\ concat (map text cs) = py "abcdefgh".
Proof.
  split; [lia|].
  apply (split_by_tokens_roundtrip (strategy 3 0) (py "abcdefgh") 3).
  - lia.
  - intros a b. reflexivity.
  - reflexivity.
Defined.

(** ** What the overlap pass keeps *)



(** X5: after a pass with a non-zero [overlap] every chunk carries the key
    [has_overlap]; its value is [false] for the last chunk of the list and
    [true] for every other chunk, whatever the [doc_id]s and contents are. *)
Theorem has_overlap_all_but_last self chunks i c' :
  overlap self <> 0 ->
  apply_overlap self chunks !! i = Some c' ->
  has_overlap (metadata c') =
  Some (bool_decide (S i < length (apply_overlap self chunks))%nat).
Proof.
  intros Hov H.
  assert (Hlen : length (apply_overlap self chunks) = length chunks).
  { unfold apply_overlap. destruct chunks as [|c0 chunks]; [reflexivity|].
    destruct (overlap self =? 0); [reflexivity | apply length_imap]. }
  rewrite Hlen. rewrite apply_overlap_lookup in H.
  destruct (chunks !! i) as [c|]; [|discriminate H]. cbn in H.
  rewrite (proj2 (Z.eqb_neq _ _) Hov) in H. injection H as <-.
  cbn. f_equal. case_bool_decide; [apply Z.ltb_lt | apply Z.ltb_ge]; lia.
Qed.

Lemma has_overlap_all_but_last_witness :
  let self := strategy 10 2 in
  let chunks := [chunk_of "chunk_00001" "doc_001" "ab"; chunk_of "chunk_00002" "doc_002" "cde"] in
  overlap self <> 0
  /\ exists c', apply_overlap self chunks !! 0%nat = Some c'
       /\ has_overlap (metadata c') =
          Some (bool_decide (1 < length (apply_overlap self chunks))%nat).
Proof.
  intros self chunks.
  assert (H0 : overlap self <> 0) by (cbn; lia).
  split; [exact H0|]. eexists.
  assert (H1 : apply_overlap self chunks !! 0%nat =
               Some (overlap_chunk self chunks 0
                       (chunk_of "chunk_00001" "doc_001" "ab"))) by reflexivity.
  split; [exact H1|].
  exact (has_overlap_all_but_last self chunks 0 _ H0 H1).
Defined.

Lemma slice_drop_last {A} (l : list A) (k : Z) :
  k < 0 -> slice l 0 k = take (Z.to_nat (Z.of_nat (length l) + k)) l.
Proof.
  intros Hk. unfold slice, clamp. cbn [Z.ltb Z.compare].
  rewrite (proj2 (Z.ltb_lt k 0)) by lia.
  rewrite Z.min_r by lia. cbn [Z.to_nat drop]. rewrite Z.sub_0_r.
  destruct (Z.max_spec 0 (Z.of_nat (length l) + k)) as [[? ->]|[? ->]].
  - reflexivity.
  - replace (Z.to_nat (Z.of_nat (length l) + k)) with 0%nat by lia. reflexivity.
Qed.

(** X6: a negative [overlap] is not rejected.  The length test
    [len(tokens) > overlap] then always holds, and [tokens[:overlap]] is the
    successor's encoding without its last [-overlap] ids: every chunk followed
    by a chunk of the same [doc_id] gets such a preview, also when the
    successor is shorter than [-overlap]. *)
Theorem negative_overlap_preview self chunks i c nxt :
  overlap self < 0 ->
  chunks !! i = Some c -> chunks !! S i = Some nxt ->
  doc_id (metadata nxt) = doc_id (metadata c) ->
  exists c', apply_overlap self chunks !! i = Some c'
    /\ content c' =
       content c ++ preview_header
       ++ decode (encoder self)
            (take (Z.to_nat (Z.of_nat (length (encode (encoder self) (content nxt)))
                             + overlap self))
                  (encode (encoder self) (content nxt)))
       ++ py "...".
Proof.
  intros Hov Hc Hn Hdoc. eexists.
  split; [apply apply_overlap_lookup_nz; [lia | exact Hc]|].
  cbn [overlap_chunk content]. unfold preview. rewrite Hn.
  apply lookup_lt_Some in Hn.
  rewrite (proj2 (Z.ltb_lt _ _)) by lia.
  unfold py_eq. rewrite bool_decide_eq_true_2 by exact Hdoc.
  rewrite (proj2 (Z.ltb_lt (overlap self) _)) by lia.
  rewrite slice_drop_last by exact Hov. reflexivity.
Qed.

Lemma negative_overlap_preview_witness :
  let self := strategy 10 (-2) in
  let c := chunk_of "chunk_00001" "doc_001" "ab" in
  let nxt := chunk_of "chunk_00002" "doc_001" "cde" in
  overlap self < 0
  /\ exists c', apply_overlap self [c; nxt] !! 0%nat = Some c'
       /\ content c' = py "ab" ++ preview_header ++ py "c" ++ py "...".
Proof.
  intros self c nxt.
  assert (H0 : overlap self < 0) by (cbn; lia).
  split; [exact H0|].
  exact (negative_overlap_preview self [c; nxt] 0 c nxt H0 eq_refl eq_refl eq_refl).
Defined.

(** ** Facts about [strip] *)







Lemma lstrip_snoc_nonspace h x :
  isspace h = false -> exists x', lstrip (x ++ [h]) = x' ++ [h].
Proof.
  intros Hh. induction x as [|c x IH]; cbn [app lstrip].
  - rewrite Hh. exists []. reflexivity.
  - destruct (isspace c); [exact IH|]. exists (c :: x). reflexivity.
Qed.

Lemma strip_cons_nonspace h t :
  isspace h = false -> exists t', strip (h :: t) = h :: t'.
Proof.
  intros Hh. unfold strip. cbn [lstrip]. rewrite Hh. unfold rstrip. cbn [rev].
  destruct (lstrip_snoc_nonspace h (rev t) Hh) as [x' ->].
  rewrite rev_app_distr. cbn. eauto.
Qed.

Lemma lstrip_Forall (P : Z -> Prop) s : Forall P s -> Forall P (lstrip s).
Proof.
  induction 1 as [|c s Hc Hs IH]; cbn [lstrip]; [constructor|].
  destruct (isspace c); [exact IH | constructor; assumption].
Qed.

Lemma strip_Forall (P : Z -> Prop) s : Forall P s -> Forall P (strip s).
Proof.
  intros H. unfold strip, rstrip.
  apply Forall_rev, lstrip_Forall, Forall_rev, lstrip_Forall, H.
Qed.

Lemma is_article_head part :
  is_article part = true -> exists t, part = JE :: t.
Proof.
  destruct part as [|c t]; [discriminate|]. cbn [is_article].
  destruct (Z.eqb_spec c JE) as [->|]; [eauto | discriminate].
Qed.

(** ** An invariant of the packing loops *)

Section PackingInvariant.

Variable self : LegalChunkingStrategy.
Variable max_tokens : Z.
Variable P : TextDict -> Prop.

Hypothesis budget_nonzero : max_tokens <> 0.
Hypothesis P_windows :
  forall txt cs, split_by_tokens self txt max_tokens = ret cs -> Forall P cs.
Hypothesis P_nonempty : forall s, s <> [] -> P {| text := s |}.

Lemma split_by_tokens_returns txt :
  exists cs, split_by_tokens self txt max_tokens = ret cs.
Proof.
  unfold split_by_tokens, py_range.
  rewrite (proj2 (Z.eqb_neq _ _) budget_nonzero). cbn [bind ret]. eauto.
Qed.

Lemma flush_paragraph_inv article r chunks :
  (exists h t, article = h :: t /\ isspace h = false) ->
  Forall P chunks -> Forall P (flush_paragraph article chunks (article ++ r)).
Proof.
  intros (h & t & -> & Hh) Hc. unfold flush_paragraph.
  destruct (decide _) as [_|_]; [exact Hc|].
  apply Forall_app. split; [exact Hc|]. constructor; [|constructor].
  apply P_nonempty. cbn [app].
  destruct (strip_cons_nonspace h (t ++ r) Hh) as [t' ->]. discriminate.
Qed.

Lemma paragraph_loop_inv article parts :
  (exists h t, article = h :: t /\ isspace h = false) ->
  forall chunks r ct, Forall P chunks ->
    exists chunks' r' ct',
      paragraph_loop self article max_tokens parts (chunks, article ++ r, ct)
        = ret (chunks', article ++ r', ct')
      /\ Forall P chunks'.
Proof.
  intros Hart. induction parts as [|part parts IH]; intros chunks r ct Hc;
    cbn [paragraph_loop].
  - eauto.
  - destruct (decide (strip part = [])) as [_|_]; [apply IH, Hc|].
    destruct (max_tokens <? count_tokens self part).
    + destruct (split_by_tokens_returns (article ++ [32] ++ part)) as [tcs Htcs].
      rewrite Htcs. cbn [bind].
      apply IH. apply Forall_app. split.
      * apply flush_paragraph_inv; assumption.
      * eapply P_windows, Htcs.
    + destruct (_ <=? _).
      * rewrite <- (app_assoc article). apply IH, Hc.
      * apply IH. apply flush_paragraph_inv; assumption.
Qed.

Lemma split_by_paragraph_inv article body :
  (exists h t, article = h :: t /\ isspace h = false) ->
  exists cs, _split_by_paragraph self article body max_tokens = ret cs
             /\ Forall P cs.
Proof.
  intros Hart. unfold _split_by_paragraph.
  destruct (paragraph_loop_inv article (re_split match_clause body) Hart
              [] [32] (count_tokens self (article ++ [32])) (Forall_nil_2 _))
    as (chunks' & r' & ct' & -> & Hc).
  cbn [bind]. eexists. split; [reflexivity|].
  apply flush_paragraph_inv; assumption.
Qed.

Lemma flush_inv chunks cur : Forall P chunks -> Forall P (flush chunks cur).
Proof.
  intros Hc. destruct cur as [|c cur]; [exact Hc|]. cbn [flush].
  apply Forall_app. split; [exact Hc|]. constructor; [|constructor].
  apply P_nonempty. discriminate.
Qed.

Lemma on_article_inv article body chunks cur ct :
  is_article article = true -> Forall P chunks ->
  exists chunks' cur' ct',
    on_article self max_tokens article body (chunks, cur, ct) = ret (chunks', cur', ct')
    /\ Forall P chunks'.
Proof.
  intros Hart Hc. unfold on_article.
  destruct (_ <=? _).
  - destruct (_ <=? _); do 3 eexists; (split; [reflexivity|]);
      [exact Hc | apply flush_inv, Hc].
  - apply is_article_head in Hart as [t ->].
    destruct (split_by_paragraph_inv (JE :: t) body) as (cs & -> & Hcs).
    { exists JE, t. split; reflexivity. }
    cbn [bind]. do 3 eexists. split; [reflexivity|].
    apply Forall_app. split; [apply flush_inv, Hc | exact Hcs].
Qed.

Lemma on_prose_inv part chunks cur ct :
  Forall P chunks ->
  exists chunks' cur' ct',
    on_prose self max_tokens part (chunks, cur, ct) = ret (chunks', cur', ct')
    /\ Forall P chunks'.
Proof.
  intros Hc. unfold on_prose.
  destruct (max_tokens <? _).
  - destruct (split_by_tokens_returns part) as [tcs Htcs]. rewrite Htcs.
    cbn [bind]. do 3 eexists. split; [reflexivity|].
    apply Forall_app. split; [apply flush_inv, Hc | eapply P_windows, Htcs].
  - destruct (_ <=? _); do 3 eexists; (split; [reflexivity|]);
      [exact Hc | apply flush_inv, Hc].
Qed.

Lemma article_loop_inv n : forall parts chunks cur ct,
  (length parts <= n)%nat -> Forall P chunks ->
  exists chunks' cur' ct',
    article_loop self max_tokens parts (chunks, cur, ct) = ret (chunks', cur', ct')
    /\ Forall P chunks'.
Proof.
  induction n as [|n IH]; intros parts chunks cur ct Hlen Hc.
  - destruct parts; [|cbn in Hlen; lia]. cbn. eauto.
  - destruct parts as [|p rest]; [cbn; eauto|]. cbn [length] in Hlen.
    cbn [article_loop].
    destruct (decide (strip p = [])) as [_|_]; [apply IH; [lia | exact Hc]|].
    destruct (is_article (strip p)) eqn:Hart.
    + match goal with
      | |- context [on_article self max_tokens ?a ?b _] =>
          destruct (on_article_inv a b chunks cur ct Hart Hc)
            as (c1 & cur1 & ct1 & -> & Hc1)
      end.
      cbn [bind]. destruct rest as [|q rest']; [eauto|].
      apply IH; [cbn [length] in Hlen; lia | exact Hc1].
    + destruct (on_prose_inv (strip p) chunks cur ct Hc)
        as (c1 & cur1 & ct1 & -> & Hc1).
      cbn [bind]. apply IH; [lia | exact Hc1].
Qed.

Lemma split_by_article_inv txt :
  exists cs, split_by_article self txt max_tokens = ret cs /\ Forall P cs.
Proof.
  unfold split_by_article.
  destruct (article_loop_inv (length (re_split match_article txt))
              (re_split match_article txt) [] [] 0 (le_n _) (Forall_nil_2 _))
    as (chunks & cur & ct & E & Hc).
  unfold pystr in *. rewrite E.
  cbn [bind]. eexists. split; [reflexivity|]. apply flush_inv, Hc.
Qed.

End PackingInvariant.

(** ** [split_by_article]: errors, empty chunks, texts without markers *)

Lemma split_by_tokens_nonempty self txt max_tokens cs :
  (forall w, w <> [] -> decode (encoder self) w <> []) ->
  max_tokens <> 0 ->
  split_by_tokens self txt max_tokens = ret cs ->
  Forall (fun c => text c <> []) cs.
Proof.
  intros Hdec Hm H. destruct (Z.ltb_spec 0 max_tokens) as [Hpos|Hneg].
  - rewrite split_by_tokens_windows in H by exact Hpos. injection H as <-.
    apply Forall_lookup_2. intros i c Hc.
    apply list_lookup_fmap_Some in Hc as (w & -> & Hw). cbn [text].
    apply windows_lookup in Hw as [Hi ->]. apply Hdec.
    pose proof (window_count_start0
                  (Z.of_nat (length (encode (encoder self) txt))) max_tokens i
                  ltac:(lia) Hpos Hi).
    intros E. apply (f_equal length) in E.
    rewrite length_take, length_drop in E. cbn [length] in E. nia.
  - unfold split_by_tokens, py_range in H.
    rewrite (proj2 (Z.eqb_neq _ _) Hm) in H.
    rewrite (proj2 (Z.ltb_ge 0 max_tokens)) in H by lia.
    rewrite (proj2 (Z.ltb_ge _ 0)) in H by lia.
    cbn in H. injection H as <-. constructor.
Qed.

(** X8: when the tokenizer decodes no non-empty list of ids to the empty
    string, [split_by_article] with a non-zero [max_tokens] returns no chunk
    with empty text. *)
Theorem split_by_article_no_empty_chunk self txt max_tokens :
  (forall w, w <> [] -> decode (encoder self) w <> []) ->
  max_tokens <> 0 ->
  exists cs, split_by_article self txt max_tokens = ret cs
             /\ Forall (fun c => text c <> []) cs.
Proof.
  intros Hdec Hm.
  apply (split_by_article_inv self max_tokens (fun c => text c <> []) Hm).
  - intros t cs H. eapply split_by_tokens_nonempty; eassumption.
  - intros s Hs. exact Hs.
Qed.

Lemma split_by_article_no_empty_chunk_witness :
  (forall w, w <> [] -> decode char_encoding w <> [])
  /\ 5 <> 0
  /\ exists cs, split_by_article (strategy 5 0) (py "  제1조 aaaaaaaaaaaa 제2조 ") 5 = ret cs
                /\ Forall (fun c => text c <> []) cs.
Proof.
  assert (H : forall w, w <> [] -> decode char_encoding w <> []) by (intros w Hw; exact Hw).
  split; [exact H|]. split; [lia|].
  apply (split_by_article_no_empty_chunk (strategy 5 0) _ 5 H). lia.
Defined.

Lemma re_search_article_no_marker s :
  Forall (fun c => c <> JE) s -> re_search match_article s = None.
Proof.
  induction 1 as [|c s Hc _ IH]; [reflexivity|].
  cbn [re_search]. unfold match_article at 1.
  rewrite (proj2 (Z.eqb_neq c JE) Hc), IH. reflexivity.
Qed.

(** X9: a text in which the character 제 does not occur has no article
    marker, and [split_by_article] treats it as one piece of prose: nothing
    for a blank text, the stripped text as the single chunk when its token
    count is within [max_tokens], and otherwise what the forced split of the
    stripped text gives. *)
Theorem split_by_article_without_marker self txt max_tokens :
  Forall (fun c => c <> JE) txt ->
  split_by_article self txt max_tokens =
  if decide (strip txt = []) then ret []
  else if max_tokens <? count_tokens self (strip txt)
       then split_by_tokens self (strip txt) max_tokens
       else ret [{| text := strip txt |}].
Proof.
  intros Hno. unfold split_by_article.
  assert (Hsplit : re_split match_article txt = [txt]).
  { unfold re_split. destruct (length txt); [reflexivity|].
    cbn [re_split_fuel]. rewrite re_search_article_no_marker by exact Hno.
    reflexivity. }
  rewrite Hsplit. cbn [article_loop].
  destruct (decide (strip txt = [])) as [E|Hne]; [reflexivity|].
  assert (Hart : is_article (strip txt) = false).
  { pose proof (strip_Forall _ _ Hno) as Hs.
    destruct (strip txt) as [|c t]; [reflexivity|].
    apply Forall_cons in Hs as [Hc _]. cbn [is_article].
    rewrite (proj2 (Z.eqb_neq c JE) Hc). reflexivity. }
  rewrite Hart. unfold on_prose.
  destruct (Z.ltb_spec max_tokens (count_tokens self (strip txt))) as [Hbig|Hfit].
  - cbn [flush app].
    destruct (split_by_tokens self (strip txt) max_tokens) as [e|tcs];
      reflexivity.
  - rewrite (proj2 (Z.leb_le _ _)) by lia.
    unfold ret at 1. cbn [bind article_loop]. unfold ret at 1. cbn [bind].
    unfold join. cbn [app]. destruct (strip txt) as [|c t]; [congruence|].
    reflexivity.
Qed.

Lemma split_by_article_without_marker_witness :
  Forall (fun c => c <> JE) (py " abcdefgh ")
  /\ split_by_article (strategy 3 0) (py " abcdefgh ") 3 =
     ret [{| text := py "abc" |}; {| text := py "def" |}; {| text := py "gh" |}].
Proof.
  assert (H : Forall (fun c => c <> JE) (py " abcdefgh "))
    by (vm_compute; repeat constructor; discriminate).
  split; [exact H|].
  rewrite (split_by_article_without_marker (strategy 3 0) _ 3 H).
  vm_compute. reflexivity.
Defined.

(** ** Headers of clause chunks *)





(** ** The assembler: order, provenance, failures *)

Lemma split_by_article_total self txt max_tokens :
  max_tokens <> 0 -> exists cs, split_by_article self txt max_tokens = ret cs.
Proof.
  intros Hm.
  destruct (split_by_article_inv self max_tokens (fun _ => True) Hm) with (txt := txt)
    as (cs & Hcs & _); eauto.
  intros t cs _. apply Forall_forall. intros; exact I.
Qed.

Lemma emit_chunks_total self block tcs n :
  is_Some (block !! "doc_id") -> is_Some (block !! "doc_name") ->
  exists cs n', emit_chunks self block tcs n = ret (cs, n').
Proof.
  intros [d Hd] [m Hm]. revert n.
  induction tcs as [|tc tcs IH]; intros n; cbn [emit_chunks]; [eauto|].
  unfold getitem. rewrite Hd, Hm. cbn [bind ret].
  destruct (IH (n + 1)) as (cs & n' & ->). cbn [bind]. eauto.
Qed.

Lemma assemble_app self pre : forall rest n cs,
  assemble self pre n = ret cs ->
  assemble self (pre ++ rest) n =
  (let* more := assemble self rest (n + Z.of_nat (length cs)) in ret (cs ++ more)).
Proof.
  induction pre as [|b pre IH]; intros rest n cs H; cbn [assemble app] in *.
  - injection H as <-. cbn [length app Z.of_nat]. rewrite Z.add_0_r.
    symmetry. apply bind_ret_r.
  - bind_inv H. rewrite Ha. unfold ret at 1. cbn [bind].
    destruct a as [| |txt]; try discriminate H.
    bind_inv H. rewrite Ha0. unfold ret at 1. cbn [bind].
    bind_inv H. rewrite Ha1. destruct a0 as [chunks k]. unfold ret at 1. cbn [bind].
    bind_inv H. injection H as <-.
    pose proof (emit_chunks_length _ _ _ _ _ _ Ha1) as Hlen.
    apply emit_chunks_spec in Ha1 as (-> & _ & _).
    rewrite (IH rest _ _ Ha2). rewrite length_app, Hlen, Nat2Z.inj_add, Z.add_assoc.
    destruct (assemble self rest _) as [e|more]; [reflexivity|].
    unfold ret. cbn [bind]. rewrite app_assoc. reflexivity.
Qed.

(** X11: the exception of a run is decided by the first block that cannot be
    assembled.  After blocks that assemble, a block without [text] raises
    [KeyError('text')]; a [text] that is not a string raises [TypeError]; and
    when the text gives at least one chunk, a missing [doc_id] raises
    [KeyError('doc_id')] and, with [doc_id] present, a missing [doc_name]
    raises [KeyError('doc_name')]. *)
Theorem first_failing_block self pre b post cs :
  assemble self pre 1 = ret cs ->
  (b !! "text" = None ->
     process_from_unified_json self (pre ++ b :: post) = raise (KeyError "text"))
  /\ (b !! "text" = Some JNull \/ (exists n, b !! "text" = Some (JInt n)) ->
        process_from_unified_json self (pre ++ b :: post) = raise TypeError)
  /\ (forall txt tcs,
        b !! "text" = Some (JStr txt) ->
        split_by_article self txt (chunk_size self) = ret tcs -> tcs <> [] ->
        (b !! "doc_id" = None ->
           process_from_unified_json self (pre ++ b :: post) = raise (KeyError "doc_id"))
        /\ (is_Some (b !! "doc_id") -> b !! "doc_name" = None ->
              process_from_unified_json self (pre ++ b :: post)
                = raise (KeyError "doc_name"))).
Proof.
  intros Hpre. unfold process_from_unified_json.
  rewrite (assemble_app self pre (b :: post) 1 cs Hpre).
  cbn [assemble]. unfold getitem.
  split; [|split].
  - intros ->. reflexivity.
  - intros [-> | [n ->]]; reflexivity.
  - intros txt tcs -> Hsplit Hne. unfold ret, raise in *. cbn [bind].
    rewrite Hsplit. cbn [bind].
    destruct tcs as [|tc tcs]; [congruence|]. cbn [emit_chunks].
    unfold getitem, ret, raise.
    split.
    + intros ->. reflexivity.
    + intros [d ->] ->. reflexivity.
Qed.

Lemma first_failing_block_witness :
  let self := strategy 10 0 in
  let pre := [block_of "d1" "n1" 1 "aaa"] in
  let no_text : gmap string jval := {[ "doc_id" := JStr (py "d") ]} in
  let no_doc_id : gmap string jval :=
    {[ "doc_name" := JStr (py "n"); "text" := JStr (py "abc") ]} in
  let no_doc_name : gmap string jval :=
    {[ "doc_id" := JStr (py "d"); "text" := JStr (py "abc") ]} in
  process_from_unified_json self (pre ++ [no_text]) = raise (KeyError "text")
  /\ process_from_unified_json self (pre ++ [no_doc_id]) = raise (KeyError "doc_id")
  /\ process_from_unified_json self (pre ++ [no_doc_name]) = raise (KeyError "doc_name").
Proof.
  intros self pre no_text no_doc_id no_doc_name.
  assert (Hpre : assemble self pre 1 = ret [
    {| chunk_id := py "chunk_00001"; content := py "aaa";
       metadata := {| doc_id := JStr (py "d1"); doc_name := JStr (py "n1");
                      page := JInt 1; chunk_tokens := 3; has_overlap := None |} |} ])
    by (vm_compute; reflexivity).
  assert (Hs : split_by_article self (py "abc") (chunk_size self)
               = ret [{| text := py "abc" |}]) by (vm_compute; reflexivity).
  split; [|split].
  - apply (proj1 (first_failing_block self pre no_text [] _ Hpre)). reflexivity.
  - apply (proj1 (proj2 (proj2 (first_failing_block self pre no_doc_id [] _ Hpre))
                    (py "abc") _ eq_refl Hs ltac:(discriminate))).
    reflexivity.
  - apply (proj2 (proj2 (proj2 (first_failing_block self pre no_doc_name [] _ Hpre))
                    (py "abc") _ eq_refl Hs ltac:(discriminate))).
    + eexists. reflexivity.
    + reflexivity.
Defined.

(** ** Order and provenance of the chunks *)

(** X13: the chunks of a run are the texts that [split_by_article] gives
    for the blocks, taken block after block in list order and within a block
    in the order returned: the i-th chunk's content begins with the i-th such
    text (the overlap pass may have appended a preview), its [doc_id] and
    [doc_name] are those of the text's block, its [page] that block's [page]
    or [0].  No text is dropped, repeated or moved. *)
Theorem chunks_follow_blocks self blocks out :
  process_from_unified_json self blocks = ret out ->
  Forall2 (fun p c => from_block p.1 p.2 c) (sources self blocks) out.
Proof.
  intros H. apply process_ret_inv in H as (cs & Hasm & ->).
  apply assemble_sources in Hasm.
  apply Forall2_same_length_lookup. split.
  - rewrite (Forall2_length _ _ _ Hasm).
    unfold apply_overlap. destruct cs as [|c0 cs]; [reflexivity|].
    destruct (overlap self =? 0); [reflexivity | symmetry; apply length_imap].
  - intros i p c' Hp Hc'. rewrite apply_overlap_lookup in Hc'.
    destruct (cs !! i) as [c|] eqn:Hc; [|discriminate Hc'].
    cbn in Hc'. injection Hc' as <-.
    destruct (Forall2_lookup_lr _ _ _ _ _ _ Hasm Hp Hc) as (Hcont & Hd & Hn & Hpg).
    unfold from_block. destruct (overlap self =? 0); cbn [id].
    + split; [exists []; rewrite app_nil_r; exact Hcont|]. repeat split; assumption.
    + cbn [overlap_chunk content metadata doc_id doc_name page].
      split; [|repeat split; assumption].
      destruct (preview self cs i c) as [extra|].
      * exists extra. rewrite Hcont. reflexivity.
      * exists []. rewrite app_nil_r. exact Hcont.
Qed.

Lemma chunks_follow_blocks_witness :
  let self := strategy 10 2 in
  let b1 := block_of "doc_001" "law" 3 "제1조 aaa 제2조 bbbbbb" in
  let b2 := block_of "doc_002" "act" 1 "  " in
  let b3 := block_of "doc_002" "act" 2 "ccc" in
  sources self [b1; b2; b3] =
    [(b1, {| text := py "제1조 aaa" |}); (b1, {| text := py "제2조 bbbbbb" |});
     (b3, {| text := py "ccc" |})]
  /\ exists out,
       process_from_unified_json self [b1; b2; b3] = ret out
       /\ Forall2 (fun p c => from_block p.1 p.2 c) (sources self [b1; b2; b3]) out.
Proof.
  intros self b1 b2 b3. split; [vm_compute; reflexivity|].
  eexists.
  assert (H : process_from_unified_json self [b1; b2; b3] =
              ret (apply_overlap self
                     [ {| chunk_id := py "chunk_00001"; content := py "제1조 aaa";
                          metadata := {| doc_id := JStr (py "doc_001");
                                         doc_name := JStr (py "law"); page := JInt 3;
                                         chunk_tokens := 7; has_overlap := None |} |};
                       {| chunk_id := py "chunk_00002"; content := py "제2조 bbbbbb";
                          metadata := {| doc_id := JStr (py "doc_001");
                                         doc_name := JStr (py "law"); page := JInt 3;
                                         chunk_tokens := 10; has_overlap := None |} |};
                       {| chunk_id := py "chunk_00003"; content := py "ccc";
                          metadata := {| doc_id := JStr (py "doc_002");
                                         doc_name := JStr (py "act"); page := JInt 2;
                                         chunk_tokens := 3; has_overlap := None |} |} ]))
    by (vm_compute; reflexivity).
  split; [exact H|].
  exact (chunks_follow_blocks self _ _ H).
Defined.

(** ** [DocumentMerger.create_unified_structure] *)

Lemma page_kept_inv page :
  DocumentMerger.page_kept page = true ->
  exists s, page !! "content" = Some (JStr s) /\ strip s <> [].
Proof.
  unfold DocumentMerger.page_kept, DocumentMerger.page_is_blank.
  destruct (page !! "content") as [[| |s]|]; cbn; try discriminate.
  case_bool_decide; [discriminate|]. eauto.
Qed.

Lemma page_loop_spec doc pgs : forall n blocks n',
  DocumentMerger.page_loop doc pgs n = inr (blocks, n') ->
  n' = n + Z.of_nat (length blocks)
  /\ Forall2 (fun page block =>
                exists number s,
                  page !! "page_number" = Some number
                  /\ page !! "content" = Some (JStr s) /\ strip s <> []
                  /\ block !! "doc_id" = Some (DocumentMerger.doc_id doc)
                  /\ block !! "doc_name" = Some (DocumentMerger.doc_name doc)
                  /\ block !! "page" = Some number
                  /\ block !! "text" = Some (JStr s))
             (filter (fun page => DocumentMerger.page_kept page = true) pgs) blocks
  /\ forall i block, blocks !! i = Some block ->
       block !! "block_id" = Some (JStr (py "block_" ++ format_05d (n + Z.of_nat i))).
Proof.
  induction pgs as [|page pgs IH]; intros n blocks n' H;
    cbn [DocumentMerger.page_loop] in H.
  - injection H as <- <-. split; [cbn; lia|]. split; [constructor|].
    intros i b Hb. rewrite lookup_nil in Hb. discriminate.
  - destruct (DocumentMerger.page_is_blank page) as [e|[|]] eqn:Hblank;
      [discriminate H | | ].
    + rewrite filter_cons_False; [apply IH, H|].
      unfold DocumentMerger.page_kept. rewrite Hblank. discriminate.
    + assert (Hkept : DocumentMerger.page_kept page = true)
        by (unfold DocumentMerger.page_kept; rewrite Hblank; reflexivity).
      rewrite filter_cons_True by exact Hkept.
      destruct (page_kept_inv page Hkept) as (s & Hs & Hne).
      destruct (page !! "page_number") as [number|] eqn:Hnum; [|discriminate H].
      rewrite Hs in H.
      destruct (DocumentMerger.page_loop doc pgs (n + 1)) as [e|[more k]] eqn:Hrest;
        [discriminate H|].
      injection H as <- <-.
      destruct (IH _ _ _ Hrest) as (-> & Hall & Hids).
      split; [cbn [length]; lia|]. split.
      * constructor; [|exact Hall].
        exists number, s. repeat split; try assumption; reflexivity.
      * intros [|i] b Hb.
        -- injection Hb as <-. rewrite Z.add_0_r. reflexivity.
        -- cbn in Hb. replace (n + Z.of_nat (S i)) with (n + 1 + Z.of_nat i) by lia.
           apply Hids, Hb.
Qed.

Lemma doc_loop_spec docs : forall n metas blocks,
  DocumentMerger.doc_loop docs n = inr (metas, blocks) ->
  Forall2 (fun doc meta =>
             meta = {[ "doc_id" := DocumentMerger.doc_id doc;
                       "doc_name" := DocumentMerger.doc_name doc;
                       "total_pages" := DocumentMerger.total_pages doc ]})
          docs metas
  /\ Forall2 (fun p block =>
                exists number s,
                  p.2 !! "page_number" = Some number
                  /\ p.2 !! "content" = Some (JStr s) /\ strip s <> []
                  /\ block !! "doc_id" = Some (DocumentMerger.doc_id p.1)
                  /\ block !! "doc_name" = Some (DocumentMerger.doc_name p.1)
                  /\ block !! "page" = Some number
                  /\ block !! "text" = Some (JStr s))
             (flat_map (fun doc => map (pair doc) (DocumentMerger.kept_pages doc)) docs)
             blocks
  /\ forall i block, blocks !! i = Some block ->
       block !! "block_id" = Some (JStr (py "block_" ++ format_05d (n + Z.of_nat i))).
Proof.
  induction docs as [|doc docs IH]; intros n metas blocks H;
    cbn [DocumentMerger.doc_loop] in H.
  - injection H as <- <-. split; [constructor|]. split; [constructor|].
    intros i b Hb. rewrite lookup_nil in Hb. discriminate.
  - destruct (DocumentMerger.page_loop doc (DocumentMerger.pages doc) n)
      as [e|[bs k]] eqn:Hpages; [discriminate H|].
    destruct (DocumentMerger.doc_loop docs k) as [e|[ms more]] eqn:Hrest;
      [discriminate H|].
    injection H as <- <-.
    destruct (page_loop_spec _ _ _ _ _ Hpages) as (-> & Hall & Hids).
    destruct (IH _ _ _ Hrest) as (Hm & Hall' & Hids').
    split; [constructor; [reflexivity | exact Hm]|]. split.
    + cbn [flat_map]. apply Forall2_app; [|exact Hall'].
      apply Forall2_fmap_l. exact Hall.
    + intros i b Hb. apply lookup_app_Some in Hb as [Hb|[Hge Hb]].
      * apply Hids, Hb.
      * replace (n + Z.of_nat i)
          with (n + Z.of_nat (length bs) + Z.of_nat (i - length bs)) by lia.
        apply Hids', Hb.
Qed.

(** X14: when [create_unified_structure] returns, its text blocks are the
    non-blank pages of the documents, document after document and page after
    page: block [i] (from 0) has [block_id] [block_] followed by [i+1] padded
    to five digits, the [doc_id] and [doc_name] of its document, the page's
    [page_number] under [page], and the page's [content], a string that is
    not blank, under [text].  [total_documents] is the number of documents. *)
Theorem create_unified_structure_blocks docs u :
  DocumentMerger.create_unified_structure docs = inr u ->
  DocumentMerger.total_documents (DocumentMerger.metadata u) = Z.of_nat (length docs)
  /\ Forall2 (fun p block =>
                exists number s,
                  p.2 !! "page_number" = Some number
                  /\ p.2 !! "content" = Some (JStr s) /\ strip s <> []
                  /\ block !! "doc_id" = Some (DocumentMerger.doc_id p.1)
                  /\ block !! "doc_name" = Some (DocumentMerger.doc_name p.1)
                  /\ block !! "page" = Some number
                  /\ block !! "text" = Some (JStr s))
             (flat_map (fun doc => map (pair doc) (DocumentMerger.kept_pages doc)) docs)
             (DocumentMerger.text_blocks u)
  /\ forall i block, DocumentMerger.text_blocks u !! i = Some block ->
       block !! "block_id" = Some (JStr (py "block_" ++ format_05d (1 + Z.of_nat i))).
Proof.
  unfold DocumentMerger.create_unified_structure. intros H.
  destruct (DocumentMerger.doc_loop docs 1) as [e|[metas blocks]] eqn:Hloop;
    [discriminate H|].
  injection H as <-. cbn.
  destruct (doc_loop_spec _ _ _ _ Hloop) as (_ & Hall & Hids).
  split; [reflexivity|]. split; [exact Hall | exact Hids].
Qed.

Lemma create_unified_structure_blocks_witness :
  let doc :=
    {| DocumentMerger.doc_id := JStr (py "doc_001");
       DocumentMerger.doc_name := JStr (py "law.pdf");
       DocumentMerger.total_pages := JInt 3;
       DocumentMerger.pages :=
         [ {[ "page_number" := JInt 1; "content" := JStr (py "제1조 abc") ]};
           {[ "page_number" := JInt 2; "content" := JStr (py "  ") ]};
           {[ "page_number" := JInt 3 ]};
           {[ "page_number" := JInt 4; "content" := JStr (py "de") ]} ] |} in
  exists u,
    DocumentMerger.create_unified_structure [doc] = inr u
    /\ DocumentMerger.text_blocks u =
       [ {[ "block_id" := JStr (py "block_00001"); "doc_id" := JStr (py "doc_001");
            "doc_name" := JStr (py "law.pdf"); "page" := JInt 1;
            "text" := JStr (py "제1조 abc") ]};
         {[ "block_id" := JStr (py "block_00002"); "doc_id" := JStr (py "doc_001");
            "doc_name" := JStr (py "law.pdf"); "page" := JInt 4;
            "text" := JStr (py "de") ]} ]
    /\ forall i block, DocumentMerger.text_blocks u !! i = Some block ->
         block !! "block_id" = Some (JStr (py "block_" ++ format_05d (1 + Z.of_nat i))).
Proof.
  intros doc.
  destruct (DocumentMerger.create_unified_structure [doc]) as [e|u] eqn:H;
    [vm_compute in H; discriminate H|].
  exists u. split; [reflexivity|]. split.
  - vm_compute in H. injection H as <-. vm_compute. reflexivity.
  - exact (proj2 (proj2 (create_unified_structure_blocks [doc] u H))).
Defined.

Lemma assemble_total self blocks :
  chunk_size self <> 0 ->
  Forall (fun b => (exists txt, b !! "text" = Some (JStr txt))
                   /\ is_Some (b !! "doc_id") /\ is_Some (b !! "doc_name")) blocks ->
  forall n, exists cs, assemble self blocks n = ret cs.
Proof.
  intros Hsize Hblocks.
  induction Hblocks as [|b blocks ((txt & Ht) & Hd & Hn) _ IH]; intros n;
    cbn [assemble]; [eauto|].
  unfold getitem. rewrite Ht. unfold ret; cbn [bind].
  destruct (split_by_article_total self txt (chunk_size self) Hsize) as [tcs ->].
  unfold ret; cbn [bind].
  destruct (emit_chunks_total self b tcs n Hd Hn) as (cs & n' & ->).
  unfold ret; cbn [bind].
  destruct (IH n') as [more ->]. unfold ret; cbn [bind]. eauto.
Qed.

(** ** Exceptions of the tokenizer *)

Lemma returns_not_raises enc e :
  tokenizer_returns enc -> tokenizer_raises enc e -> False.
Proof.
  intros [Henc Hdec] [[txt H]|[tokens H]].
  - destruct (Henc txt) as [t Ht]. rewrite Ht in H. discriminate H.
  - destruct (Hdec tokens) as [t Ht]. rewrite Ht in H. discriminate H.
Qed.

Section Agreement.

Variable self : Raising.LegalChunkingStrategy.

Local Abbreviation enc := (Raising.encoder self).
Local Abbreviation self0 := (returned_strategy self).

Lemma agrees_refl {A} (m : result A) : agrees enc m m.
Proof. right. reflexivity. Qed.

Lemma agrees_bind_ret {A B} (m : result A) (a0 : A) (k : A -> result B) r0 :
  agrees enc m (ret a0) -> agrees enc (k a0) r0 -> agrees enc (bind m k) r0.
Proof.
  intros [(e & -> & He)| ->] Hk.
  - left. exists e. split; [reflexivity | exact He].
  - exact Hk.
Qed.

Lemma agrees_bind {A B} (m m0 : result A) (k k0 : A -> result B) :
  agrees enc m m0 -> (forall a, agrees enc (k a) (k0 a)) ->
  agrees enc (bind m k) (bind m0 k0).
Proof.
  intros [(e & -> & He)| ->] Hk.
  - left. exists e. split; [reflexivity | exact He].
  - destruct m0 as [e|a]; [right; reflexivity | apply Hk].
Qed.

Lemma agrees_ret_inv {A} (m m0 : result A) a :
  agrees enc m m0 -> m = ret a -> m0 = ret a.
Proof.
  intros [(e & -> & _)| ->] H; [discriminate H | exact H].
Qed.

Lemma agrees_raise_inv {A} (m : result A) a e :
  agrees enc m (ret a) -> m = raise e -> tokenizer_raises enc e.
Proof.
  intros [(e' & -> & He)| ->] H; [|discriminate H].
  injection H as <-. exact He.
Qed.

Lemma agrees_returns {A} (m m0 : result A) :
  tokenizer_returns enc -> agrees enc m m0 -> m = m0.
Proof.
  intros Hret [(e & _ & He)| ->]; [|reflexivity].
  destruct (returns_not_raises _ _ Hret He).
Qed.

Lemma encode_agrees txt :
  agrees enc (Raising.encode enc txt) (ret (encode (encoder self0) txt)).
Proof.
  unfold agrees, tokenizer_raises. cbn [returned_strategy encoder returned encode].
  destruct (Raising.encode enc txt) as [e|tokens] eqn:E.
  - left. exists e. split; [reflexivity|]. left. exists txt. exact E.
  - right. reflexivity.
Qed.

Lemma decode_agrees tokens :
  agrees enc (Raising.decode enc tokens) (ret (decode (encoder self0) tokens)).
Proof.
  unfold agrees, tokenizer_raises. cbn [returned_strategy encoder returned decode].
  destruct (Raising.decode enc tokens) as [e|txt] eqn:E.
  - left. exists e. split; [reflexivity|]. right. exists tokens. exact E.
  - right. reflexivity.
Qed.

Lemma count_tokens_agrees txt :
  agrees enc (Raising.count_tokens self txt) (ret (count_tokens self0 txt)).
Proof.
  unfold Raising.count_tokens, count_tokens.
  eapply agrees_bind_ret; [apply encode_agrees | apply agrees_refl].
Qed.

Lemma decode_windows_agrees tokens max_tokens starts :
  agrees enc (Raising.decode_windows self tokens max_tokens starts)
    (ret (map (fun i => {| text := decode (encoder self0)
                                     (slice tokens i (i + max_tokens)) |}) starts)).
Proof.
  induction starts as [|i starts IH]; cbn [Raising.decode_windows map].
  - apply agrees_refl.
  - eapply agrees_bind_ret; [apply decode_agrees|].
    eapply agrees_bind_ret; [apply IH | apply agrees_refl].
Qed.

Lemma split_by_tokens_agrees txt max_tokens :
  agrees enc (Raising.split_by_tokens self txt max_tokens)
    (split_by_tokens self0 txt max_tokens).
Proof.
  unfold Raising.split_by_tokens, split_by_tokens.
  eapply agrees_bind_ret; [apply encode_agrees|].
  apply agrees_bind; [apply agrees_refl|].
  intros starts. apply decode_windows_agrees.
Qed.

Lemma paragraph_loop_agrees article max_tokens parts : forall st,
  agrees enc (Raising.paragraph_loop self article max_tokens parts st)
    (paragraph_loop self0 article max_tokens parts st).
Proof.
  induction parts as [|part parts IH]; intros [[chunks cur] ct];
    cbn [Raising.paragraph_loop paragraph_loop]; [apply agrees_refl|].
  destruct (decide (strip part = [])) as [_|_]; [apply IH|].
  eapply agrees_bind_ret; [apply count_tokens_agrees|]. cbv zeta.
  destruct (max_tokens <? count_tokens self0 part).
  - apply agrees_bind; [apply split_by_tokens_agrees|]. intros token_chunks.
    eapply agrees_bind_ret; [apply count_tokens_agrees | apply IH].
  - destruct (ct + count_tokens self0 part <=? max_tokens); [apply IH|].
    eapply agrees_bind_ret; [apply count_tokens_agrees | apply IH].
Qed.

Lemma split_by_paragraph_agrees article body max_tokens :
  agrees enc (Raising._split_by_paragraph self article body max_tokens)
    (_split_by_paragraph self0 article body max_tokens).
Proof.
  unfold Raising._split_by_paragraph, _split_by_paragraph. cbv zeta.
  eapply agrees_bind_ret; [apply count_tokens_agrees|].
  apply agrees_bind; [apply paragraph_loop_agrees|].
  intros [[chunks cur] ct]. apply agrees_refl.
Qed.

Lemma on_article_agrees max_tokens article body st :
  agrees enc (Raising.on_article self max_tokens article body st)
    (on_article self0 max_tokens article body st).
Proof.
  destruct st as [[chunks cur] ct]. unfold Raising.on_article, on_article. cbv zeta.
  eapply agrees_bind_ret; [apply count_tokens_agrees|].
  destruct (_ <=? max_tokens); [apply agrees_refl|].
  apply agrees_bind; [apply split_by_paragraph_agrees|].
  intros para_chunks. apply agrees_refl.
Qed.

Lemma on_prose_agrees max_tokens part st :
  agrees enc (Raising.on_prose self max_tokens part st)
    (on_prose self0 max_tokens part st).
Proof.
  destruct st as [[chunks cur] ct]. unfold Raising.on_prose, on_prose. cbv zeta.
  eapply agrees_bind_ret; [apply count_tokens_agrees|].
  destruct (max_tokens <? _); [|apply agrees_refl].
  apply agrees_bind; [apply split_by_tokens_agrees|].
  intros token_chunks. apply agrees_refl.
Qed.

Lemma article_loop_agrees max_tokens n : forall parts st,
  (length parts <= n)%nat ->
  agrees enc (Raising.article_loop self max_tokens parts st)
    (article_loop self0 max_tokens parts st).
Proof.
  induction n as [|n IH]; intros parts st Hlen.
  - destruct parts; [apply agrees_refl | cbn in Hlen; lia].
  - destruct parts as [|p rest]; [apply agrees_refl|]. cbn [length] in Hlen.
    cbn [Raising.article_loop article_loop]. cbv zeta.
    destruct (decide (strip p = [])) as [_|_]; [apply IH; lia|].
    destruct (is_article (strip p)).
    + apply agrees_bind; [apply on_article_agrees|]. intros st'.
      destruct rest as [|q rest']; [apply agrees_refl|].
      apply IH. cbn [length] in Hlen. lia.
    + apply agrees_bind; [apply on_prose_agrees|]. intros st'.
      apply IH. lia.
Qed.

Lemma split_by_article_agrees txt max_tokens :
  agrees enc (Raising.split_by_article self txt max_tokens)
    (split_by_article self0 txt max_tokens).
Proof.
  unfold Raising.split_by_article, split_by_article. cbv zeta.
  apply agrees_bind; [eapply article_loop_agrees, le_n|].
  intros [[chunks cur] ct]. apply agrees_refl.
Qed.

Lemma emit_chunks_agrees block tcs : forall n,
  agrees enc (Raising.emit_chunks self block tcs n) (emit_chunks self0 block tcs n).
Proof.
  induction tcs as [|tc tcs IH]; intros n;
    cbn [Raising.emit_chunks emit_chunks]; [apply agrees_refl|]. cbv zeta.
  apply agrees_bind; [apply agrees_refl|]. intros d.
  apply agrees_bind; [apply agrees_refl|]. intros nm.
  eapply agrees_bind_ret; [apply count_tokens_agrees|].
  apply agrees_bind; [apply IH|].
  intros [more k]. apply agrees_refl.
Qed.

Lemma assemble_agrees blocks : forall n,
  agrees enc (Raising.assemble self blocks n) (assemble self0 blocks n).
Proof.
  induction blocks as [|b blocks IH]; intros n;
    cbn [Raising.assemble assemble]; [apply agrees_refl|].
  apply agrees_bind; [apply agrees_refl|].
  intros [| |txt]; try apply agrees_refl.
  apply agrees_bind; [apply split_by_article_agrees|]. intros tcs.
  apply agrees_bind; [apply emit_chunks_agrees|]. intros [chunks k].
  apply agrees_bind; [apply IH|]. intros more. apply agrees_refl.
Qed.

Lemma preview_agrees chunks i chunk :
  agrees enc (Raising.preview self chunks i chunk) (ret (preview self0 chunks i chunk)).
Proof.
  unfold Raising.preview, preview. cbv zeta.
  destruct (Z.of_nat i <? _); [|apply agrees_refl].
  destruct (chunks !! S i) as [next_chunk|]; [|apply agrees_refl].
  destruct (py_eq _ _); [|apply agrees_refl].
  eapply agrees_bind_ret; [apply encode_agrees|].
  cbn [returned_strategy overlap].
  destruct (Raising.overlap self <? _); [|apply agrees_refl].
  eapply agrees_bind_ret; [apply decode_agrees | apply agrees_refl].
Qed.

Lemma overlap_chunk_agrees chunks i chunk :
  agrees enc (Raising.overlap_chunk self chunks i chunk)
    (ret (overlap_chunk self0 chunks i chunk)).
Proof.
  unfold Raising.overlap_chunk, overlap_chunk. cbv zeta.
  eapply agrees_bind_ret; [apply preview_agrees|].
  eapply agrees_bind_ret; [apply count_tokens_agrees | apply agrees_refl].
Qed.

Lemma overlap_loop_agrees chunks todo : forall i,
  agrees enc (Raising.overlap_loop self chunks i todo)
    (ret (imap (fun j => overlap_chunk self0 chunks (i + j)%nat) todo)).
Proof.
  induction todo as [|c todo IH]; intros i;
    cbn [Raising.overlap_loop imap]; [apply agrees_refl|].
  eapply agrees_bind_ret; [apply overlap_chunk_agrees|].
  eapply agrees_bind_ret; [apply IH|].
  right. unfold ret. f_equal. rewrite Nat.add_0_r. f_equal.
  apply imap_ext. intros j x _. cbn. rewrite Nat.add_succ_r. reflexivity.
Qed.

Lemma apply_overlap_agrees chunks :
  agrees enc (Raising.apply_overlap self chunks) (ret (apply_overlap self0 chunks)).
Proof.
  unfold Raising.apply_overlap, apply_overlap.
  destruct chunks as [|c chunks]; [apply agrees_refl|].
  cbn [returned_strategy overlap].
  destruct (Raising.overlap self =? 0); [apply agrees_refl|].
  exact (overlap_loop_agrees (c :: chunks) (c :: chunks) 0%nat).
Qed.

Lemma process_agrees blocks :
  agrees enc (Raising.process_from_unified_json self blocks)
    (process_from_unified_json self0 blocks).
Proof.
  unfold Raising.process_from_unified_json, process_from_unified_json.
  apply agrees_bind; [apply assemble_agrees|].
  intros all_chunks. apply apply_overlap_agrees.
Qed.

End Agreement.

(** X7: with a [max_tokens] other than zero, an exception that leaves
    [split_by_article] is an exception of the tokenizer (the [ValueError] of
    [range], the only other one in the three splitters, needs a step of zero).
    So the method returns whenever the tokenizer raises on no input, and what
    it returns is what the method gives over the tokenizer's values. *)
Theorem split_by_article_exceptions self txt max_tokens :
  max_tokens <> 0 ->
  (forall e, Raising.split_by_article self txt max_tokens = raise e ->
     tokenizer_raises (Raising.encoder self) e)
  /\ (tokenizer_returns (Raising.encoder self) ->
        exists cs, Raising.split_by_article self txt max_tokens = ret cs)
  /\ (forall cs, Raising.split_by_article self txt max_tokens = ret cs ->
        split_by_article (returned_strategy self) txt max_tokens = ret cs).
Proof.
  intros Hm.
  pose proof (split_by_article_agrees self txt max_tokens) as Hag.
  destruct (split_by_article_total (returned_strategy self) txt max_tokens Hm)
    as [cs0 Hcs0].
  split; [|split].
  - intros e H. rewrite Hcs0 in Hag. exact (agrees_raise_inv self _ _ _ Hag H).
  - intros Hret. exists cs0. rewrite <- Hcs0. exact (agrees_returns self _ _ Hret Hag).
  - intros cs H. exact (agrees_ret_inv self _ _ _ Hag H).
Qed.

Lemma split_by_article_exceptions_witness :
  5 <> 0
  /\ Raising.split_by_article (Raising.strategy 5 0) (py "제1조 a<|endoftext|>b") 5
     = raise ValueError
  /\ tokenizer_raises Raising.special_encoding ValueError
  /\ Raising.split_by_article (Raising.strategy 5 0) (py "제1조 aaaaaaaaaaaa") 5
     = ret [ {| text := py "제1조 a" |}; {| text := py "aaaaa" |};
             {| text := py "aaaaa" |}; {| text := py "a" |} ]
  /\ split_by_article (returned_strategy (Raising.strategy 5 0))
       (py "제1조 aaaaaaaaaaaa") 5
     = ret [ {| text := py "제1조 a" |}; {| text := py "aaaaa" |};
             {| text := py "aaaaa" |}; {| text := py "a" |} ].
Proof.
  assert (H5 : 5 <> 0) by lia.
  assert (Hraise : Raising.split_by_article (Raising.strategy 5 0)
                     (py "제1조 a<|endoftext|>b") 5 = raise ValueError)
    by (vm_compute; reflexivity).
  assert (Hrun : Raising.split_by_article (Raising.strategy 5 0)
                   (py "제1조 aaaaaaaaaaaa") 5
                 = ret [ {| text := py "제1조 a" |}; {| text := py "aaaaa" |};
                         {| text := py "aaaaa" |}; {| text := py "a" |} ])
    by (vm_compute; reflexivity).
  split; [exact H5|]. split; [exact Hraise|]. split; [|split; [exact Hrun|]].
  - exact (proj1 (split_by_article_exceptions (Raising.strategy 5 0)
                    (py "제1조 a<|endoftext|>b") 5 H5) ValueError Hraise).
  - exact (proj2 (proj2 (split_by_article_exceptions (Raising.strategy 5 0)
                           (py "제1조 aaaaaaaaaaaa") 5 H5)) _ Hrun).
Defined.

(** X12: when [chunk_size] is not zero and every block has a string under
    [text] and some value under [doc_id] and [doc_name] ([page] is not
    needed), an exception that leaves [process_from_unified_json] is an
    exception of the tokenizer; the run returns whenever the tokenizer raises
    on no input. *)
Theorem process_exceptions self blocks :
  Raising.chunk_size self <> 0 ->
  Forall (fun b => (exists txt, b !! "text" = Some (JStr txt))
                   /\ is_Some (b !! "doc_id") /\ is_Some (b !! "doc_name")) blocks ->
  (forall e, Raising.process_from_unified_json self blocks = raise e ->
     tokenizer_raises (Raising.encoder self) e)
  /\ (tokenizer_returns (Raising.encoder self) ->
        exists out, Raising.process_from_unified_json self blocks = ret out).
Proof.
  intros Hsize Hblocks.
  pose proof (process_agrees self blocks) as Hag.
  destruct (assemble_total (returned_strategy self) blocks Hsize Hblocks 1) as [cs Hcs].
  assert (Hrun : process_from_unified_json (returned_strategy self) blocks
                 = ret (apply_overlap (returned_strategy self) cs)).
  { unfold process_from_unified_json. rewrite Hcs. reflexivity. }
  rewrite Hrun in Hag. split.
  - intros e H. exact (agrees_raise_inv self _ _ _ Hag H).
  - intros Hret. eexists. exact (agrees_returns self _ _ Hret Hag).
Qed.

Lemma process_exceptions_witness :
  let self := Raising.strategy 4 2 in
  let no_page : gmap string jval :=
    {[ "doc_id" := JStr (py "d"); "doc_name" := JNull;
       "text" := JStr (py "제1조 <|endoftext|>") ]} in
  let blocks := [block_of "d1" "n1" 1 "aaaaaaa"; no_page] in
  Raising.chunk_size self <> 0
  /\ Raising.process_from_unified_json self blocks = raise ValueError
  /\ tokenizer_raises (Raising.encoder self) ValueError.
Proof.
  intros self no_page blocks.
  assert (H0 : Raising.chunk_size self <> 0) by (cbn; lia).
  assert (Hraise : Raising.process_from_unified_json self blocks = raise ValueError)
    by (vm_compute; reflexivity).
  split; [exact H0|]. split; [exact Hraise|].
  refine (proj1 (process_exceptions self blocks H0 _) ValueError Hraise).
  repeat apply Forall_cons_2; try apply Forall_nil_2;
    (split; [eexists; reflexivity | split; eexists; reflexivity]).
Defined.



(** X22: the class over a tokenizer that can raise does what the class over
    the tokenizer's values does, up to the tokenizer's exceptions: a run
    either stops with an exception of the tokenizer or ends as the run over
    [returned_strategy] ends, with the same chunks or the same exception; the
    two are equal when the tokenizer raises on no input. *)
Theorem raising_run_agrees self blocks :
  agrees (Raising.encoder self)
    (Raising.process_from_unified_json self blocks)
    (process_from_unified_json (returned_strategy self) blocks)
  /\ (forall out, Raising.process_from_unified_json self blocks = ret out ->
        process_from_unified_json (returned_strategy self) blocks = ret out)
  /\ (tokenizer_returns (Raising.encoder self) ->
        Raising.process_from_unified_json self blocks
        = process_from_unified_json (returned_strategy self) blocks).
Proof.
  pose proof (process_agrees self blocks) as Hag.
  split; [exact Hag|]. split.
  - intros out H. exact (agrees_ret_inv self _ _ _ Hag H).
  - intros Hret. exact (agrees_returns self _ _ Hret Hag).
Qed.

Lemma raising_run_agrees_witness :
  let self := Raising.strategy 10 2 in
  let blocks := [block_of "d" "n" 3 "제1조 aaa 제2조 bbbbbb"] in
  exists out,
    Raising.process_from_unified_json self blocks = ret out
    /\ process_from_unified_json (returned_strategy self) blocks = ret out.
Proof.
  intros self blocks.
  destruct (Raising.process_from_unified_json self blocks) as [e|out] eqn:H;
    [vm_compute in H; discriminate H|].
  exists out. split; [reflexivity|].
  exact (proj1 (proj2 (raising_run_agrees self blocks)) out H).
Defined.

Lemma raising_assemble_app self pre : forall n cs,
  Raising.assemble self pre n = ret cs ->
  exists n', forall rest,
    Raising.assemble self (pre ++ rest) n =
    (let* more := Raising.assemble self rest n' in ret (cs ++ more)).
Proof.
  induction pre as [|b pre IH]; intros n cs H; cbn [Raising.assemble app] in H.
  - injection H as <-. exists n. intros rest. cbn [app]. symmetry. apply bind_ret_r.
  - apply bind_ret_inv in H as (t & Ht & H).
    destruct t as [| |txt]; try discriminate H.
    apply bind_ret_inv in H as (tcs & Htcs & H).
    apply bind_ret_inv in H as ([chunks k] & Hemit & H).
    apply bind_ret_inv in H as (more & Hmore & H). injection H as <-.
    destruct (IH _ _ Hmore) as [n' Hn']. exists n'. intros rest.
    cbn [Raising.assemble app].
    rewrite Ht. unfold ret at 1. cbn [bind].
    rewrite Htcs. unfold ret at 1. cbn [bind].
    rewrite Hemit. unfold ret at 1. cbn [bind].
    rewrite Hn'.
    destruct (Raising.assemble self rest n') as [e|more']; [reflexivity|].
    unfold ret. cbn [bind]. rewrite app_assoc. reflexivity.
Qed.

(** X23: an exception of the tokenizer is caught nowhere.  When [encode]
    raises on the stripped text of a block (a text without 제, so one piece of
    prose, and not blank), [split_by_article] raises the same exception, and
    so does the run, whatever the blocks before it gave and whatever follows:
    no chunk of any block is returned. *)
Theorem tokenizer_exception_aborts_run self pre b post txt cs e max_tokens :
  Raising.assemble self pre 1 = ret cs ->
  b !! "text" = Some (JStr txt) ->
  Forall (fun c => c <> JE) txt -> strip txt <> [] ->
  Raising.encode (Raising.encoder self) (strip txt) = raise e ->
  Raising.split_by_article self txt max_tokens = raise e
  /\ Raising.process_from_unified_json self (pre ++ b :: post) = raise e.
Proof.
  intros Hpre Ht Hno Hne Henc.
  assert (Hsplit : forall m, Raising.split_by_article self txt m = raise e).
  { intros m. unfold Raising.split_by_article.
    assert (Hparts : re_split match_article txt = [txt]).
    { unfold re_split. destruct (length txt); [reflexivity|].
      cbn [re_split_fuel]. rewrite re_search_article_no_marker by exact Hno.
      reflexivity. }
    rewrite Hparts. cbn [Raising.article_loop].
    destruct (decide (strip txt = [])) as [E|_]; [contradiction|].
    assert (Hart : is_article (strip txt) = false).
    { pose proof (strip_Forall _ _ Hno) as Hs.
      destruct (strip txt) as [|c t]; [reflexivity|].
      apply Forall_cons in Hs as [Hc _]. cbn [is_article].
      rewrite (proj2 (Z.eqb_neq c JE) Hc). reflexivity. }
    rewrite Hart. unfold Raising.on_prose, Raising.count_tokens.
    rewrite Henc. reflexivity. }
  split; [apply Hsplit|].
  unfold Raising.process_from_unified_json.
  destruct (raising_assemble_app self pre 1 cs Hpre) as [n' Hn'].
  rewrite Hn'. cbn [Raising.assemble]. unfold getitem. rewrite Ht.
  unfold ret at 1. cbn [bind]. rewrite Hsplit. reflexivity.
Qed.

Lemma tokenizer_exception_aborts_run_witness :
  let self := Raising.strategy 10 0 in
  let pre := [block_of "d1" "n1" 1 "aaa"] in
  let b := block_of "d2" "n2" 1 " x<|endoftext|>y " in
  let post := [block_of "d2" "n2" 2 "bbb"] in
  Raising.encode (Raising.encoder self) (strip (py " x<|endoftext|>y ")) = raise ValueError
  /\ Raising.split_by_article self (py " x<|endoftext|>y ") 10 = raise ValueError
  /\ Raising.process_from_unified_json self (pre ++ b :: post) = raise ValueError.
Proof.
  intros self pre b post.
  assert (Henc : Raising.encode (Raising.encoder self) (strip (py " x<|endoftext|>y "))
                 = raise ValueError) by (vm_compute; reflexivity).
  split; [exact Henc|].
  refine (tokenizer_exception_aborts_run self pre b post (py " x<|endoftext|>y ")
            [ {| chunk_id := py "chunk_00001"; content := py "aaa";
                 metadata := {| doc_id := JStr (py "d1"); doc_name := JStr (py "n1");
                                page := JInt 1; chunk_tokens := 3;
                                has_overlap := None |} |} ]
            ValueError 10 _ _ _ _ Henc).
  - vm_compute. reflexivity.
  - reflexivity.
  - vm_compute. repeat constructor; discriminate.
  - vm_compute. discriminate.
Defined.

Lemma page_loop_ok doc pgs : forall n r,
  DocumentMerger.page_loop doc pgs n = inr r -> Forall DocumentMerger.page_ok pgs.
Proof.
  induction pgs as [|pg pgs IH]; intros n r H; [constructor|].
  cbn [DocumentMerger.page_loop] in H.
  unfold DocumentMerger.page_is_blank in H. unfold DocumentMerger.page_ok.
  destruct (pg !! "content") as [[| |s]|] eqn:Hcontent; cbn in H;
    try discriminate H.
  - case_bool_decide.
    + constructor; [right; eauto | eapply IH, H].
    + destruct (pg !! "page_number") as [number|] eqn:Hnum; [|discriminate H].
      destruct (DocumentMerger.page_loop doc pgs (n + 1)) as [e|r1] eqn:E;
        [discriminate H|].
      constructor; [right; exists s; rewrite Hnum; eauto | eapply IH, E].
  - constructor; [left; assumption | eapply IH, H].
Qed.

Lemma page_loop_total doc pgs :
  Forall DocumentMerger.page_ok pgs ->
  forall n, exists r, DocumentMerger.page_loop doc pgs n = inr r.
Proof.
  induction 1 as [|pg pgs Hpg _ IH]; intros n; cbn [DocumentMerger.page_loop];
    [eauto|].
  unfold DocumentMerger.page_is_blank.
  destruct Hpg as [-> | (s & -> & Hs)]; cbn.
  - apply IH.
  - case_bool_decide; [apply IH|].
    destruct Hs as [Hs|[number ->]]; [contradiction|].
    destruct (IH (n + 1)) as [[more k] ->]. eauto.
Qed.

Lemma doc_loop_ok docs : forall n r,
  DocumentMerger.doc_loop docs n = inr r ->
  Forall (fun doc => Forall DocumentMerger.page_ok (DocumentMerger.pages doc)) docs.
Proof.
  induction docs as [|doc docs IH]; intros n r H; [constructor|].
  cbn [DocumentMerger.doc_loop] in H.
  destruct (DocumentMerger.page_loop doc (DocumentMerger.pages doc) n)
    as [e|[bs k]] eqn:Hp; [discriminate H|].
  destruct (DocumentMerger.doc_loop docs k) as [e|r1] eqn:Hd; [discriminate H|].
  constructor; [eapply page_loop_ok, Hp | eapply IH, Hd].
Qed.

Lemma doc_loop_total docs :
  Forall (fun doc => Forall DocumentMerger.page_ok (DocumentMerger.pages doc)) docs ->
  forall n, exists r, DocumentMerger.doc_loop docs n = inr r.
Proof.
  induction 1 as [|doc docs Hdoc _ IH]; intros n; cbn [DocumentMerger.doc_loop];
    [eauto|].
  destruct (page_loop_total doc _ Hdoc n) as [[bs k] ->].
  destruct (IH k) as [[ms more] ->]. eauto.
Qed.

(** X16: [create_unified_structure] raises exactly when some page of some
    document has a [content] that is not a string, or has a non-blank
    [content] and no [page_number]; a page without [content] is skipped like
    a blank one. *)
Theorem create_unified_structure_returns_iff docs :
  (exists u, DocumentMerger.create_unified_structure docs = inr u)
  <-> forall doc pg, doc ∈ docs -> pg ∈ DocumentMerger.pages doc ->
        pg !! "content" = None
        \/ exists s, pg !! "content" = Some (JStr s)
                     /\ (strip s = [] \/ is_Some (pg !! "page_number")).
Proof.
  unfold DocumentMerger.create_unified_structure. split.
  - intros [u Hu] doc pg Hdoc Hpg.
    destruct (DocumentMerger.doc_loop docs 1) as [e|r] eqn:E; [discriminate Hu|].
    apply doc_loop_ok in E.
    rewrite Forall_forall in E. specialize (E doc Hdoc).
    rewrite Forall_forall in E. exact (E pg Hpg).
  - intros H.
    destruct (doc_loop_total docs) with (n := 1) as [[metas blocks] ->]; [|eauto].
    apply Forall_forall. intros doc Hdoc.
    apply Forall_forall. intros pg Hpg. exact (H doc pg Hdoc Hpg).
Qed.

Lemma create_unified_structure_returns_iff_witness :
  let doc pgs :=
    {| DocumentMerger.doc_id := JStr (py "doc_001");
       DocumentMerger.doc_name := JStr (py "law.pdf");
       DocumentMerger.total_pages := JInt 2;
       DocumentMerger.pages := pgs |} in
  (exists u, DocumentMerger.create_unified_structure
               [doc [ {[ "page_number" := JInt 1; "content" := JStr (py "abc") ]};
                      {[ "page_number" := JInt 2 ]}; {[ "content" := JStr (py " ") ]} ]]
             = inr u)
  /\ DocumentMerger.create_unified_structure
       [doc [ {[ "content" := JStr (py "abc") ]} ]]
     = inl (DocumentMerger.KeyError "page_number")
  /\ DocumentMerger.create_unified_structure
       [doc [ {[ "page_number" := JInt 1; "content" := JNull ]} ]]
     = inl DocumentMerger.AttributeError.
Proof.
  intros doc. split; [|split; vm_compute; reflexivity].
  apply (proj2 (create_unified_structure_returns_iff _)).
  intros d pg Hd Hpg.
  apply list_elem_of_singleton in Hd as ->. cbn in Hpg.
  repeat (apply elem_of_cons in Hpg as [->|Hpg]).
  - right. exists (py "abc"). split; [reflexivity|]. right. eexists. reflexivity.
  - left. reflexivity.
  - right. exists (py " "). split; [reflexivity|]. left. vm_compute. reflexivity.
  - apply elem_of_nil in Hpg. contradiction.
Defined.

(** ** [DocumentMerger.load_all_documents] *)

Example sorted_ex :
  sorted [py "b_processed.json"; py "a_processed.json"; py "B_processed.json";
          py "ab_processed.json"; py "a_processed.jso"] =
  [py "B_processed.json"; py "a_processed.jso"; py "a_processed.json";
   py "ab_processed.json"; py "b_processed.json"].
Proof. vm_compute. reflexivity. Qed.

Example endswith_ex :
  map (fun f => endswith f (py "_processed.json"))
    [py "x_processed.json"; py "_processed.json"; py "processed.json";
     py "a_processed.json.bak"] =
  [true; true; false; false].
Proof. vm_compute. reflexivity. Qed.

Example contains_ex :
  contains (py "적법") (py "부적법합니다") = true
  /\ contains [] (py "abc") = true
  /\ contains (py "적법") (py "적 법") = false.
Proof. vm_compute. repeat split. Qed.

Lemma format_03d_inj a b :
  0 <= a -> 0 <= b -> format_03d a = format_03d b -> a = b.
Proof.
  intros Ha Hb. unfold format_03d.
  rewrite (proj2 (Z.ltb_ge a 0)), (proj2 (Z.ltb_ge b 0)) by lia.
  intros H. apply uint_codes_inj in H.
  apply (f_equal N.of_uint) in H.
  rewrite !of_uint_zero_pad, !DecimalN.Unsigned.of_to in H. lia.
Qed.

Lemma load_one_id read i f d :
  DocumentMerger.load_one read i f = Some d ->
  DocumentMerger.doc_id d = JStr (py "doc_" ++ format_03d i).
Proof.
  unfold DocumentMerger.load_one.
  destruct (read f) as [data|]; [|discriminate].
  destruct (DocumentMerger.file_name data); [|discriminate].
  destruct (DocumentMerger.file_total_pages data); [|discriminate].
  destruct (DocumentMerger.file_pages data); [|discriminate].
  intros [= <-]. reflexivity.
Qed.

Lemma load_loop_spec read all : forall files done docs,
  all = done ++ files ->
  (forall d, d ∈ docs ->
     exists k f, (k < length done)%nat /\ all !! k = Some f
                 /\ DocumentMerger.load_one read (1 + Z.of_nat k) f = Some d) ->
  NoDup (DocumentMerger.doc_id <$> docs) ->
  NoDup (DocumentMerger.doc_id <$>
           DocumentMerger.load_loop read files (1 + Z.of_nat (length done)) docs)
  /\ forall d,
       d ∈ DocumentMerger.load_loop read files (1 + Z.of_nat (length done)) docs ->
       exists k f, all !! k = Some f
                   /\ DocumentMerger.load_one read (1 + Z.of_nat k) f = Some d.
Proof.
  induction files as [|f files IH]; intros done docs Hall Hdocs Hnd;
    cbn [DocumentMerger.load_loop].
  - split; [exact Hnd|]. intros d Hd.
    destruct (Hdocs d Hd) as (k & g & _ & Hk & Hload). eauto.
  - assert (Hall' : all = (done ++ [f]) ++ files)
      by (rewrite <- app_assoc; exact Hall).
    assert (Hi : 1 + Z.of_nat (length done) + 1 = 1 + Z.of_nat (length (done ++ [f])))
      by (rewrite length_app; cbn [length]; lia).
    assert (Hf : all !! length done = Some f).
    { rewrite Hall. rewrite lookup_app_r by lia.
      rewrite Nat.sub_diag. reflexivity. }
    rewrite Hi.
    destruct (DocumentMerger.load_one read (1 + Z.of_nat (length done)) f)
      as [doc|] eqn:Hload.
    + apply (IH _ _ Hall').
      * intros d Hd. apply elem_of_app in Hd as [Hd|Hd].
        -- destruct (Hdocs d Hd) as (k & g & Hlt & Hk & Hl).
           exists k, g. rewrite length_app. cbn [length].
           split; [lia|]. split; assumption.
        -- apply list_elem_of_singleton in Hd as ->.
           exists (length done), f. rewrite length_app. cbn [length].
           split; [lia|]. split; assumption.
      * rewrite fmap_app. apply NoDup_app. split; [exact Hnd|]. split.
        -- intros x Hx Hx'. cbn in Hx'. apply list_elem_of_singleton in Hx' as ->.
           apply list_elem_of_fmap in Hx as (d & Hid & Hd).
           destruct (Hdocs d Hd) as (k & g & Hlt & _ & Hl).
           apply load_one_id in Hl. apply load_one_id in Hload.
           rewrite Hl, Hload in Hid. injection Hid as Hid.
           apply format_03d_inj in Hid; lia.
        -- cbn. apply NoDup_singleton.
    + apply (IH _ _ Hall'); [|exact Hnd].
      intros d Hd. destruct (Hdocs d Hd) as (k & g & Hlt & Hk & Hl).
      exists k, g. rewrite length_app. cbn [length].
      split; [lia|]. split; assumption.
Qed.

(** X17: a first [load_all_documents] (empty [self.documents]) gives
    documents with pairwise distinct [doc_id]s.  Each comes from a file whose
    name ends in [_processed.json], and its [doc_id] is [doc_] followed by
    what [f"{k:03d}"] gives for the place [k] (from 1) of that name among the
    sorted names; a file that cannot be loaded uses up its number. *)
Theorem load_all_documents_ids listing read :
  let files := sorted (filter (fun f => endswith f (py "_processed.json") = true) listing) in
  let docs := DocumentMerger.load_all_documents listing read [] in
  NoDup (DocumentMerger.doc_id <$> docs)
  /\ forall d, d ∈ docs ->
       exists k f,
         files !! k = Some f
         /\ DocumentMerger.load_one read (1 + Z.of_nat k) f = Some d
         /\ DocumentMerger.doc_id d = JStr (py "doc_" ++ format_03d (1 + Z.of_nat k)).
Proof.
  intros files docs. unfold docs, DocumentMerger.load_all_documents. fold files.
  destruct (load_loop_spec read files files [] [] eq_refl) as [Hnd Horigin].
  - intros d Hd. apply elem_of_nil in Hd. contradiction.
  - constructor.
  - cbn [length Z.of_nat] in *. rewrite Z.add_0_r in *.
    split; [exact Hnd|]. intros d Hd.
    destruct (Horigin d Hd) as (k & f & Hk & Hl).
    exists k, f. split; [exact Hk|]. split; [exact Hl|].
    eapply load_one_id, Hl.
Qed.

Lemma load_loop_app read files : forall i docs,
  DocumentMerger.load_loop read files i docs =
  docs ++ DocumentMerger.load_loop read files i [].
Proof.
  induction files as [|f files IH]; intros i docs; cbn [DocumentMerger.load_loop].
  - rewrite app_nil_r. reflexivity.
  - destruct (DocumentMerger.load_one read i f) as [doc|].
    + rewrite (IH (i + 1) (docs ++ [doc])), (IH (i + 1) ([] ++ [doc])).
      rewrite <- app_assoc. reflexivity.
    + apply IH.
Qed.

(** X18: [load_all_documents] appends to [self.documents] and numbers from 1
    on every call: after a call on a merger that already holds documents the
    list is the old list followed by what a first call gives, so loading the
    same directory twice repeats every document and every [doc_id]. *)
Theorem load_all_documents_appends listing read docs :
  DocumentMerger.load_all_documents listing read docs =
  docs ++ DocumentMerger.load_all_documents listing read [].
Proof. unfold DocumentMerger.load_all_documents. apply load_loop_app. Qed.

Lemma load_all_documents_ids_witness :
  let read := fun f : pystr =>
    if bool_decide (f = py "b_processed.json") then None
    else Some {| DocumentMerger.file_name := Some (JStr f);
                 DocumentMerger.file_total_pages := Some (JInt 1);
                 DocumentMerger.file_pages := Some [] |} in
  let listing := [py "c_processed.json"; py "notes.txt"; py "b_processed.json";
                  py "a_processed.json"] in
  DocumentMerger.doc_id <$> DocumentMerger.load_all_documents listing read [] =
    [JStr (py "doc_001"); JStr (py "doc_003")]
  /\ NoDup (DocumentMerger.doc_id <$> DocumentMerger.load_all_documents listing read []).
Proof.
  intros read listing. split; [vm_compute; reflexivity|].
  exact (proj1 (load_all_documents_ids listing read)).
Defined.

(** ** The verdict box of the chat page *)

Lemma contains_tail a p s : contains (a :: p) s = true -> contains p s = true.
Proof.
  induction s as [|b s IH]; cbn [contains startswith]; [discriminate|].
  intros H. apply orb_true_iff in H as [H|H].
  - apply andb_true_iff in H as [_ H].
    apply orb_true_iff. right.
    destruct s; cbn [contains] in *; rewrite H; reflexivity.
  - apply orb_true_iff. right. apply IH, H.
Qed.

(** X19: the red box is never shown.  The chain tests ["적법" in 결론] before
    ["부적법" in 결론], and every string that contains 부적법 contains 적법: a
    conclusion that says 부적법 (unlawful) is shown in the green success box,
    and no conclusion reaches the [st.error] branch. *)
Theorem verdict_box_never_error conclusion :
  verdict_box conclusion <> st_error
  /\ (contains (py "부적법") conclusion = true -> verdict_box conclusion = st_success).
Proof.
  assert (H : contains (py "부적법") conclusion = true ->
              contains (py "적법") conclusion = true).
  { change (py "부적법") with (48512 :: py "적법"). apply contains_tail. }
  unfold verdict_box. split.
  - destruct (contains (py "적법") conclusion); [discriminate|].
    destruct (contains (py "부적법") conclusion); [|discriminate].
    specialize (H eq_refl). discriminate H.
  - intros Hc. rewrite (H Hc). reflexivity.
Qed.

Lemma verdict_box_never_error_witness :
  contains (py "부적법") (py "해당 공사는 부적법합니다") = true
  /\ verdict_box (py "해당 공사는 부적법합니다") = st_success.
Proof.
  assert (H : contains (py "부적법") (py "해당 공사는 부적법합니다") = true)
    by (vm_compute; reflexivity).
  split; [exact H|].
  exact (proj2 (verdict_box_never_error _) H).
Defined.

(** ** Budgets that are not positive *)











(** X21: [max_tokens = 0] is not rejected either: a text without the
    character 제 that is not blank and has at least one token after stripping
    reaches the forced split, whose [range(0, n, 0)] raises [ValueError]. *)
Theorem zero_budget_raises self txt :
  Forall (fun c => c <> JE) txt ->
  strip txt <> [] ->
  0 < count_tokens self (strip txt) ->
  split_by_article self txt 0 = raise ValueError.
Proof.
  intros Hno Hne Hcount. unfold split_by_article.
  assert (Hsplit : re_split match_article txt = [txt]).
  { unfold re_split. destruct (length txt); [reflexivity|].
    cbn [re_split_fuel]. rewrite re_search_article_no_marker by exact Hno.
    reflexivity. }
  rewrite Hsplit. cbn [article_loop].
  rewrite decide_False by exact Hne.
  assert (Hart : is_article (strip txt) = false).
  { pose proof (strip_Forall _ _ Hno) as Hs.
    destruct (strip txt) as [|c t]; [reflexivity|].
    apply Forall_cons in Hs as [Hc _]. cbn [is_article].
    rewrite (proj2 (Z.eqb_neq c JE) Hc). reflexivity. }
  rewrite Hart. unfold on_prose.
  rewrite (proj2 (Z.ltb_lt _ _)) by lia.
  unfold split_by_tokens, py_range. cbn [Z.eqb]. reflexivity.
Qed.

Lemma zero_budget_raises_witness :
  Forall (fun c => c <> JE) (py " abc ")
  /\ strip (py " abc ") <> []
  /\ 0 < count_tokens (strategy 0 0) (strip (py " abc "))
  /\ split_by_article (strategy 0 0) (py " abc ") 0 = raise ValueError.
Proof.
  assert (H1 : Forall (fun c => c <> JE) (py " abc "))
    by (vm_compute; repeat constructor; discriminate).
  assert (H2 : strip (py " abc ") <> []) by (vm_compute; discriminate).
  assert (H3 : 0 < count_tokens (strategy 0 0) (strip (py " abc ")))
    by (vm_compute; reflexivity).
  split; [exact H1|]. split; [exact H2|]. split; [exact H3|].
  exact (zero_budget_raises (strategy 0 0) _ H1 H2 H3).
Defined.
